(** * Growth-Insights: the IP-recording middleware and the map page

    A shallow embedding of the two TypeScript programs of the repository,

    - the edge [middleware] (with [getIpInfoFromIp] and
      [saveIpInfoToDatabase]), which gates a request by path, reads the
      [x-forwarded-for] header, asks the geolocation provider about it and
      upserts the answer into the [ip_info] table;
    - the [MapPage] component, which reads [ip_info] back and puts one
      Leaflet marker on the map per row that has a [loc];

    and of what else the repository holds: the second copy of the middleware
    and the SQL report of distinct addresses by country.

    The outside world (the provider, the database, [crypto.randomUUID],
    [process.env]) is an explicit environment of oracles; what the code does
    to it is a log of events and a table, both threaded through a small
    state-and-exception monad. *)

From Stdlib Require Import String Ascii List ZArith Bool Lia.
From stdpp Require Import base option gmap strings pretty list fin_maps sorting.

Local Open Scope string_scope.
Local Open Scope Z_scope.
Local Open Scope list_scope.

(** ** JavaScript values *)

(** The values that [res.json()] can produce, plus [undefined], which reading
    a property that is not there produces.  A number is kept as the decimal
    [mantissa * 10 ^ exponent] its literal denotes: the middleware copies
    numbers and never computes with them.  An object is a finite map from
    property names to values, as [JSON.parse] builds it. *)
#[warnings="-register-all"]
Inductive JSValue : Type :=
| JUndefined
| JNull
| JBool (b : bool)
| JNum (mantissa exponent : Z)
| JString (s : string)
| JArray (items : list JSValue)
| JObject (props : gmap string JSValue).

(** What a [throw] carries, as far as the middleware can meet one. *)
Inductive Exn : Type :=
| FetchFailed (reason : string)      (* fetch() rejected: no response at all *)
| JsonSyntaxError (reason : string)  (* res.json() rejected: body is not JSON *)
| TypeError (reason : string).       (* property read on null or undefined *)

(** The [error] member of the object the database client resolves to. *)
Definition PostgrestError : Type := string.

(** ** Requests and responses *)

(** [request.nextUrl.pathname] and [request.headers].  A header map is keyed
    by the lower-case header name; [headers.get] is its lookup and answers
    [null] (here [None]) for a name that is not there. *)
Record NextRequest : Type := {
  pathname : string;
  headers : gmap string string
}.

Definition headers_get (h : gmap string string) (name : string) : option string :=
  h !! name.

(** [NextResponse.next()] and [NextResponse.json(body, { status })]. *)
Inductive NextResponse : Type :=
| NextResponse_next
| NextResponse_json (body : JSValue) (status : Z).

(** The object literal [{ error: msg }]. *)
Definition error_object (msg : string) : JSValue :=
  JObject {[ "error" := JString msg ]}.

(** ** Records *)

(** The object [getIpInfoFromIp] returns. *)
Record IpInfo : Type := {
  info_ip : JSValue;
  info_hostname : JSValue;
  info_city : JSValue;
  info_region : JSValue;
  info_country : JSValue;
  info_loc : JSValue;
  info_org : JSValue;
  info_postal : JSValue;
  info_timezone : JSValue
}.

(** The object [saveIpInfoToDatabase] hands to [upsert]. *)
Record Row : Type := {
  id : string;
  ip : JSValue;
  hostname : JSValue;
  city : JSValue;
  region : JSValue;
  country : JSValue;
  loc : JSValue;
  org : JSValue;
  postal : JSValue;
  timezone : JSValue
}.

(** ** The world *)

(** What the provider does with a GET: no response at all, or a response with
    a status whose body either is not JSON or parses to a value. *)
Inductive Body : Type :=
| NotJson (reason : string)
| Json (data : JSValue).

Inductive FetchOutcome : Type :=
| Rejects (reason : string)
| Responds (status : Z) (body : Body).

Inductive Logged : Type :=
| LogExn (e : Exn)
| LogDb (e : PostgrestError).

(** Everything the middleware does that is visible outside it. *)
Inductive Event : Type :=
| EvFetch (url : string)
| EvUpsert (table : string) (rows : list Row)
| EvConsoleError (label : string) (what : Logged)
| EvConsoleLog (label : string).

Record World : Type := {
  trace : list Event;             (* oldest event first *)
  ip_info : gmap string Row;      (* the table, by primary key *)
  uuids_drawn : nat               (* calls of crypto.randomUUID so far *)
}.

(** The collaborators.  The provider and the database may answer differently
    from one call to the next, so both see the world at the time of the call.
    [randomUUID n] is the identifier the [n]-th call of [crypto.randomUUID]
    yields. *)
Record Env : Type := {
  IP_KEY : option string;         (* process.env.IP_KEY, None if unset *)
  provider : World -> string -> FetchOutcome;
  randomUUID : nat -> string;
  store_verdict : World -> list Row -> option PostgrestError
}.

(** ** A state-and-exception monad *)

Inductive Result (A : Type) : Type :=
| Ok (a : A)
| Throw (e : Exn).
Arguments Ok {A} a.
Arguments Throw {A} e.

Definition M (A : Type) : Type := World -> Result A * World.

Definition ret {A} (a : A) : M A := fun w => (Ok a, w).

Definition bind {A B} (m : M A) (k : A -> M B) : M B := fun w =>
  match m w with
  | (Ok a, w') => k a w'
  | (Throw e, w') => (Throw e, w')
  end.

Definition throw {A} (e : Exn) : M A := fun w => (Throw e, w).

(** [try { body } catch (error) { handler }] *)
Definition try_catch {A} (body : M A) (handler : Exn -> M A) : M A := fun w =>
  match body w with
  | (Ok a, w') => (Ok a, w')
  | (Throw e, w') => handler e w'
  end.

Declare Scope js_scope.
Delimit Scope js_scope with js.
Notation "x <- m ;; k" := (bind m (fun x => k))
  (at level 100, m at next level, right associativity) : js_scope.
Notation "m ;;; k" := (bind m (fun _ => k))
  (at level 100, right associativity) : js_scope.

Definition log (ev : Event) (w : World) : World :=
  {| trace := trace w ++ [ev]; ip_info := ip_info w; uuids_drawn := uuids_drawn w |}.

(** ** JavaScript primitives the middleware uses *)

(** [array.includes(x)] on an array of strings. *)
Definition includes (xs : list string) (x : string) : bool :=
  existsb (String.eqb x) xs.

(** [!ip] for [ip : string | null]: [null] and the empty string are falsy. *)
Definition js_not (ip : option string) : bool :=
  match ip with
  | None => true
  | Some s => String.eqb s ""
  end.

(** A template literal hole holding a [string | null]. *)
Definition interpolate_nullable (v : option string) : string :=
  match v with
  | Some s => s
  | None => "null"
  end.

(** A template literal hole holding a [string | undefined]. *)
Definition interpolate_optional (v : option string) : string :=
  match v with
  | Some s => s
  | None => "undefined"
  end.

(** [data.name] for one of the nine names the middleware reads.  None of them
    is a property of a prototype, so only an object's own properties count;
    reading from [null] or [undefined] throws. *)
Definition get_property (data : JSValue) (name : string) : M JSValue :=
  match data with
  | JUndefined | JNull =>
      throw (TypeError ("Cannot read properties of null or undefined (reading '" +:+ name +:+ "')"))
  | JObject props => ret (default JUndefined (props !! name))
  | _ => ret JUndefined
  end.

(** [console.error(label, what)] *)
Definition console_error (label : string) (what : Logged) : M unit := fun w =>
  (Ok tt, log (EvConsoleError label what) w).

(** [console.log(label, ...)] *)
Definition console_log (label : string) : M unit := fun w =>
  (Ok tt, log (EvConsoleLog label) w).

Section Middleware.

Variable env : Env.

(** [await fetch(url)]: resolves to the response, or rejects. *)
Definition fetch (url : string) : M (Z * Body) := fun w =>
  let w' := log (EvFetch url) w in
  match provider env w url with
  | Rejects reason => (Throw (FetchFailed reason), w')
  | Responds status body => (Ok (status, body), w')
  end.

(** [await res.json()] *)
Definition res_json (res : Z * Body) : M JSValue :=
  match snd res with
  | NotJson reason => throw (JsonSyntaxError reason)
  | Json data => ret data
  end.

(** [crypto.randomUUID()] *)
Definition crypto_randomUUID : M string := fun w =>
  (Ok (randomUUID env (uuids_drawn w)),
   {| trace := trace w; ip_info := ip_info w; uuids_drawn := S (uuids_drawn w) |}).

(** Modelled from the spec: the [ip_info] table and the client that
    [createClient()] returns (lib/supabaseClient) are not among the sources.
    The table is keyed on [id]; [upsert] inserts a row, or replaces the row
    that has its [id]; a write the database rejects changes nothing and
    resolves to [{ error }] instead of throwing. *)
Definition store_rows (t : gmap string Row) (rows : list Row) : gmap string Row :=
  fold_left (fun acc r => <[ id r := r ]> acc) rows t.

(** [await supabase.from(table).upsert(rows)], resolving to its [error]. *)
Definition upsert (table : string) (rows : list Row) : M (option PostgrestError) := fun w =>
  let w' := log (EvUpsert table rows) w in
  match store_verdict env w rows with
  | Some e => (Ok (Some e), w')
  | None =>
      (Ok None,
       {| trace := trace w'; ip_info := store_rows (ip_info w') rows;
          uuids_drawn := uuids_drawn w' |})
  end.

Definition IPINFO_API_URL : string := "https://ipinfo.io".

(** [getIpInfoFromIp], src/unnamed/part_000 lines 71-90. *)
Definition getIpInfoFromIp (ip : option string) : M (option IpInfo) :=
  (try_catch
     (res <- fetch (IPINFO_API_URL +:+ "/" +:+ interpolate_nullable ip
                      +:+ "/json?token=" +:+ interpolate_optional (IP_KEY env)) ;;
      data <- res_json res ;;
      v_ip <- get_property data "ip" ;;
      v_hostname <- get_property data "hostname" ;;
      v_city <- get_property data "city" ;;
      v_region <- get_property data "region" ;;
      v_country <- get_property data "country" ;;
      v_loc <- get_property data "loc" ;;
      v_org <- get_property data "org" ;;
      v_postal <- get_property data "postal" ;;
      v_timezone <- get_property data "timezone" ;;
      ret (Some {| info_ip := v_ip; info_hostname := v_hostname; info_city := v_city;
                   info_region := v_region; info_country := v_country; info_loc := v_loc;
                   info_org := v_org; info_postal := v_postal;
                   info_timezone := v_timezone |}))
     (fun error =>
        console_error "Error fetching IP info:" (LogExn error) ;;;
        ret None))%js.

(** [saveIpInfoToDatabase], src/unnamed/part_000 lines 92-115. *)
Definition saveIpInfoToDatabase (ipInfo : option IpInfo) : M unit :=
  (match ipInfo with
   | None => ret tt
   | Some info =>
       fresh <- crypto_randomUUID ;;
       error <- upsert "ip_info"
                  [ {| id := fresh;
                       ip := info_ip info;
                       hostname := info_hostname info;
                       city := info_city info;
                       region := info_region info;
                       country := info_country info;
                       loc := info_loc info;
                       org := info_org info;
                       postal := info_postal info;
                       timezone := info_timezone info |} ] ;;
       match error with
       | Some e => console_error "Error saving IP info to Supabase:" (LogDb e)
       | None => ret tt
       end
   end)%js.

(** [middleware], src/unnamed/part_000 lines 50-69. *)
Definition middleware (request : NextRequest) : M NextResponse :=
  (let response := NextResponse_next in
   if negb (includes ["/"; "/poem"; "/monitoring"] (pathname request)) then
     ret (NextResponse_json (error_object "Access to this endpoint is not allowed") 403)
   else
     let ip := headers_get (headers request) "x-forwarded-for" in
     if js_not ip then
       ret (NextResponse_json (error_object "IP not found") 400)
     else
       ipInfo <- getIpInfoFromIp ip ;;
       saveIpInfoToDatabase ipInfo ;;;
       ret response)%js.

End Middleware.

(** ** The second middleware

    The repository holds a second copy of the middleware
    (src/unnamed/part_000 lines 327-423, with Portuguese messages).  It
    differs from the one above in the texts, in a [console.log] after a
    successful write, and in a call of [getUserIdFromRequest] whose result is
    not used. *)

Module Variant.

Section Middleware.

Variable env : Env.

(** [getUserIdFromRequest]: the [user_id] header, or a default. *)
Definition getUserIdFromRequest (request : NextRequest) : M string :=
  let user_id := headers_get (headers request) "user_id" in
  ret (if js_not user_id then "anonimo" else interpolate_nullable user_id).

Definition getIpInfoFromIp (ip : option string) : M (option IpInfo) :=
  (try_catch
     (res <- fetch env (IPINFO_API_URL +:+ "/" +:+ interpolate_nullable ip
                          +:+ "/json?token=" +:+ interpolate_optional (IP_KEY env)) ;;
      data <- res_json res ;;
      v_ip <- get_property data "ip" ;;
      v_hostname <- get_property data "hostname" ;;
      v_city <- get_property data "city" ;;
      v_region <- get_property data "region" ;;
      v_country <- get_property data "country" ;;
      v_loc <- get_property data "loc" ;;
      v_org <- get_property data "org" ;;
      v_postal <- get_property data "postal" ;;
      v_timezone <- get_property data "timezone" ;;
      ret (Some {| info_ip := v_ip; info_hostname := v_hostname; info_city := v_city;
                   info_region := v_region; info_country := v_country; info_loc := v_loc;
                   info_org := v_org; info_postal := v_postal;
                   info_timezone := v_timezone |}))
     (fun error =>
        console_error "Erro ao buscar informações do IP:" (LogExn error) ;;;
        ret None))%js.

Definition saveIpInfoToDatabase (ipInfo : option IpInfo) : M unit :=
  (match ipInfo with
   | None => ret tt
   | Some info =>
       fresh <- crypto_randomUUID env ;;
       error <- upsert env "ip_info"
                  [ {| id := fresh;
                       ip := info_ip info;
                       hostname := info_hostname info;
                       city := info_city info;
                       region := info_region info;
                       country := info_country info;
                       loc := info_loc info;
                       org := info_org info;
                       postal := info_postal info;
                       timezone := info_timezone info |} ] ;;
       match error with
       | Some e => console_error "Erro ao salvar informações do IP no Supabase:" (LogDb e)
       | None => console_log "Informações do IP salvas com sucesso no Supabase:"
       end
   end)%js.

Definition middleware (request : NextRequest) : M NextResponse :=
  (let response := NextResponse_next in
   if negb (String.eqb (pathname request) "/") &&
      negb (String.eqb (pathname request) "/poem") &&
      negb (String.eqb (pathname request) "/monitoring") then
     ret (NextResponse_json (error_object "Access to this endpoint is not allowed") 403)
   else
     let ip := headers_get (headers request) "x-forwarded-for" in
     if js_not ip then
       ret (NextResponse_json (error_object "IP não encontrado") 400)
     else
       ipInfo <- getIpInfoFromIp ip ;;
       user_id <- getUserIdFromRequest request ;;
       saveIpInfoToDatabase ipInfo ;;;
       ret response)%js.

End Middleware.

End Variant.

(** The status a response carries; [NextResponse.next()] lets the request
    through and carries none. *)
Definition status_of (r : NextResponse) : option Z :=
  match r with
  | NextResponse_next => None
  | NextResponse_json _ status => Some status
  end.

(** Serving requests one after the other. *)
Definition serve (env : Env) (requests : list NextRequest) (w : World) : World :=
  fold_left (fun acc request => snd (middleware env request acc)) requests w.

(** ** Observing a run *)

(** The URLs fetched, the rows handed to the database and the lines written
    to the console, each in the order of the log. *)
Definition provider_calls (t : list Event) : list string :=
  omap (fun ev => match ev with EvFetch url => Some url | _ => None end) t.

Definition storage_writes (t : list Event) : list (string * list Row) :=
  omap (fun ev => match ev with EvUpsert table rows => Some (table, rows) | _ => None end) t.

Definition console_errors (t : list Event) : list (string * Logged) :=
  omap (fun ev => match ev with EvConsoleError label what => Some (label, what) | _ => None end) t.

(** The world right after a call of [crypto.randomUUID]. *)
Definition drew_uuid (w : World) : World :=
  {| trace := trace w; ip_info := ip_info w; uuids_drawn := S (uuids_drawn w) |}.

(** The world after the database accepted [r]. *)
Definition stored (r : Row) (w : World) : World :=
  {| trace := trace w; ip_info := <[ id r := r ]> (ip_info w); uuids_drawn := uuids_drawn w |}.

(** The URL of the provider for the address [V]: base, address, token. *)
Definition lookup_url (env : Env) (V : string) : string :=
  "https://ipinfo.io/" +:+ V +:+ "/json?token=" +:+ interpolate_optional (IP_KEY env).

(** [data.name] where it does not throw. *)
Definition read (data : JSValue) (name : string) : JSValue :=
  match data with
  | JObject props => default JUndefined (props !! name)
  | _ => JUndefined
  end.

Definition nullish (data : JSValue) : bool :=
  match data with
  | JUndefined | JNull => true
  | _ => false
  end.

(** The nine properties of a payload, each read by its own name. *)
Definition fields_of (data : JSValue) : IpInfo :=
  {| info_ip := read data "ip"; info_hostname := read data "hostname";
     info_city := read data "city"; info_region := read data "region";
     info_country := read data "country"; info_loc := read data "loc";
     info_org := read data "org"; info_postal := read data "postal";
     info_timezone := read data "timezone" |}.

(** The row written for a lookup result under the identifier [fresh]. *)
Definition row_of (fresh : string) (info : IpInfo) : Row :=
  {| id := fresh; ip := info_ip info; hostname := info_hostname info;
     city := info_city info; region := info_region info;
     country := info_country info; loc := info_loc info; org := info_org info;
     postal := info_postal info; timezone := info_timezone info |}.

(** [res.ok]: the status is in the range 200-299. *)
Definition res_ok (status : Z) : bool := (200 <=? status) && (status <=? 299).

(** The three ways a lookup can fail according to the specification. *)
Definition lookup_failed (o : FetchOutcome) : bool :=
  match o with
  | Rejects _ => true
  | Responds _ (NotJson _) => true
  | Responds status (Json _) => negb (res_ok status)
  end.

(** The lookups that end in the [catch]: [fetch] rejected, [res.json()]
    rejected, or the body parsed to [null], whose properties cannot be read.
    The status plays no part. *)
Definition without_value (o : FetchOutcome) : bool :=
  match o with
  | Rejects _ => true
  | Responds _ (NotJson _) => true
  | Responds _ (Json data) => nullish data
  end.

(** Every row of the table sits under its own [id], and that [id] came out of
    [crypto.randomUUID] earlier in the run. *)
Definition ids_drawn (env : Env) (w : World) : Prop :=
  forall k r, ip_info w !! k = Some r ->
    id r = k /\ exists n, (n < uuids_drawn w)%nat /\ randomUUID env n = k.

(** [crypto.randomUUID] never yields the same identifier twice. *)
Definition collision_free (env : Env) : Prop :=
  forall m n, randomUUID env m = randomUUID env n -> m = n.

(** All nine fields of a row hold a value. *)
Definition populated (v : JSValue) : bool :=
  match v with
  | JUndefined => false
  | _ => true
  end.

Definition fully_formed (r : Row) : bool :=
  populated (ip r) && populated (hostname r) && populated (city r) &&
  populated (region r) && populated (country r) && populated (loc r) &&
  populated (org r) && populated (postal r) && populated (timezone r).

(** What one allowed request with a forwarded address does to the world, by
    the answer of the provider and the verdict of the database. *)
Inductive Recorded (env : Env) (V : string) (w : World) : World -> Prop :=
| lookup_threw (e : Exn) :
    match provider env w (lookup_url env V) with
    | Rejects reason => e = FetchFailed reason
    | Responds _ (NotJson reason) => e = JsonSyntaxError reason
    | Responds _ (Json data) => nullish data = true /\ exists reason, e = TypeError reason
    end ->
    Recorded env V w
      (log (EvConsoleError "Error fetching IP info:" (LogExn e))
         (log (EvFetch (lookup_url env V)) w))
| write_accepted (status : Z) (data : JSValue) :
    provider env w (lookup_url env V) = Responds status (Json data) ->
    nullish data = false ->
    let w1 := drew_uuid (log (EvFetch (lookup_url env V)) w) in
    let r := row_of (randomUUID env (uuids_drawn w)) (fields_of data) in
    store_verdict env w1 [r] = None ->
    Recorded env V w (stored r (log (EvUpsert "ip_info" [r]) w1))
| write_rejected (status : Z) (data : JSValue) (e : PostgrestError) :
    provider env w (lookup_url env V) = Responds status (Json data) ->
    nullish data = false ->
    let w1 := drew_uuid (log (EvFetch (lookup_url env V)) w) in
    let r := row_of (randomUUID env (uuids_drawn w)) (fields_of data) in
    store_verdict env w1 [r] = Some e ->
    Recorded env V w
      (log (EvConsoleError "Error saving IP info to Supabase:" (LogDb e))
         (log (EvUpsert "ip_info" [r]) w1)).

(** ** The map page (page.tsx) *)

Module Page.

(** One element of [data]: the four selected columns, [None] for SQL NULL. *)
Record Item : Type := {
  loc : option string;
  city : option string;
  country : option string;
  hostname : option string
}.

(** What [select] resolves to: [{ data, error }] with one of the two set. *)
Inductive SelectResult : Type :=
| SelectError (e : PostgrestError)
| SelectData (data : list Item).

(** [item.loc] as a condition: [null] and the empty string are falsy. *)
Definition truthy (v : option string) : bool := negb (js_not v).

(** [s.split(",")]: the pieces between the commas, so one more piece than
    there are commas.  [split_pieces] walks the string and hands back the
    piece under construction apart from the finished ones after it. *)
Fixpoint split_pieces (s : string) : string * list string :=
  match s with
  | EmptyString => ("", [])
  | String c rest =>
      let (piece, pieces) := split_pieces rest in
      if Ascii.eqb c "," then ("", piece :: pieces)
      else (String c piece, pieces)
  end.

Definition split_comma (s : string) : list string :=
  let (piece, pieces) := split_pieces s in piece :: pieces.

(** [L.divIcon({ className, html, iconSize })]; the [html] is the same fixed
    SVG circle for every marker and is left out. *)
Record DivIcon : Type := {
  className : string;
  iconSize : Z * Z
}.

Definition customIcon : DivIcon := {| className := "custom-marker"; iconSize := (30, 30) |}.

Section WithNumber.

(** JavaScript numbers, the conversion [Number(string)] and the test
    [isNaN(number)] are parameters: the page only passes the numbers on to
    Leaflet, which checks them. *)
Variable num : Type.
Variable Number : string -> num.
Variable isNaN : num -> bool.

(** A marker on the map: the position Leaflet accepted, the icon and the
    popup bound to it. *)
Record Marker : Type := {
  latlng : num * num;
  icon : DivIcon;
  popup : string
}.

(** The Leaflet map: view, tile layers (by URL template; the attribution text
    is left out) and markers, in the order added. *)
Record LeafletMap : Type := {
  view : (Z * Z) * Z;
  tiles : list string;
  markers : list Marker
}.

Record PageState : Type := {
  locations : list Item;          (* the useState cell *)
  map : option LeafletMap;        (* the map built in the "map" element *)
  console : list PostgrestError   (* console.error lines *)
}.

Definition initial : PageState := {| locations := []; map := None; console := [] |}.

(** [fetchLocations], page.tsx lines 14-23, once [select] has resolved. *)
Definition fetchLocations (result : SelectResult) (st : PageState) : PageState :=
  match result with
  | SelectError e =>
      {| locations := locations st; map := map st; console := console st ++ [e] |}
  | SelectData data =>
      {| locations := filter (fun item => Is_true (truthy (loc item))) data;
         map := map st; console := console st |}
  end.

(** [.addTo(map)] *)
Definition addTo (m : Marker) (lmap : LeafletMap) : LeafletMap :=
  {| view := view lmap; tiles := tiles lmap; markers := markers lmap ++ [m] |}.

(** Leaflet's check of a position, as [L.marker([lat, lng])] runs it when it
    builds its [LatLng]: [isNaN(lat) || isNaN(lng)] throws [Invalid LatLng
    object], and [undefined] (here [None], an element the destructuring
    [[lat, lng] = ...] did not find) is not a number either.  [None] stands
    for the throw. *)
Definition toLatLng (lat lng : option num) : option (num * num) :=
  match lat, lng with
  | Some a, Some b => if isNaN a || isNaN b then None else Some (a, b)
  | _, _ => None
  end.

(** The body of the [forEach] callback, page.tsx lines 39-57.  [None] stands
    for a throw: the [TypeError] of [loc.split] when [loc] is [null], or
    Leaflet's when it refuses the position; the marker is added to the map
    and gets its popup only after [L.marker] returned. *)
Definition place_marker (lmap : LeafletMap) (item : Item) : option LeafletMap :=
  match loc item with
  | None => None
  | Some s =>
      let parts := List.map Number (split_comma s) in
      let lat := parts !! 0%nat in
      let lng := parts !! 1%nat in
      match toLatLng lat lng with
      | None => None
      | Some position =>
          Some (addTo {| latlng := position;
                         icon := customIcon;
                         popup := "<h3>" +:+ interpolate_nullable (city item) +:+ ", "
                                    +:+ interpolate_nullable (country item) +:+ "</h3><p>"
                                    +:+ interpolate_nullable (hostname item) +:+ "</p>" |}
                      lmap)
      end
  end.

(** [locations.forEach(...)]: the callback runs on each element in turn, and
    a throw ends the loop. *)
Fixpoint forEach (items : list Item) (lmap : LeafletMap) : option LeafletMap :=
  match items with
  | [] => Some lmap
  | item :: rest =>
      match place_marker lmap item with
      | Some lmap' => forEach rest lmap'
      | None => None
      end
  end.

(** [typeof window !== "undefined"]: effects only run in the browser. *)
Definition window_defined : bool := true.

(** The second effect, page.tsx lines 28-61, run for the current
    [locations]; [None] when it throws. *)
Definition map_effect (st : PageState) : option PageState :=
  if (0 <? length (locations st))%nat && window_defined then
    let lmap := {| view := ((0, 0), 2);
                   tiles := ["https://{s}.tile.openstreetmap.org/{z}/{x}/{y}.png"];
                   markers := [] |} in
    match forEach (locations st) lmap with
    | Some lmap' =>
        Some {| locations := locations st; map := Some lmap'; console := console st |}
    | None => None
    end
  else Some st.

(** The life of the component: both effects run after the first render (the
    map effect sees no locations yet), then [select] resolves,
    [fetchLocations] sets the state, and the map effect runs again for the
    new [locations]. *)
Definition MapPage (result : SelectResult) : option PageState :=
  match map_effect initial with
  | Some st => map_effect (fetchLocations result st)
  | None => None
  end.

(** The markers on the page. *)
Definition rendered (st : PageState) : list Marker :=
  match map st with
  | Some lmap => markers lmap
  | None => []
  end.

(** The marker that [place_marker] adds for a row, [None] where it throws. *)
Definition marker_of (item : Item) : option Marker :=
  match loc item with
  | None => None
  | Some s =>
      match toLatLng (Number <$> split_comma s !! 0%nat)
                     (Number <$> split_comma s !! 1%nat) with
      | None => None
      | Some position =>
          Some {| latlng := position;
                  icon := customIcon;
                  popup := "<h3>" +:+ interpolate_nullable (city item) +:+ ", "
                             +:+ interpolate_nullable (country item) +:+ "</h3><p>"
                             +:+ interpolate_nullable (hostname item) +:+ "</p>" |}
      end
  end.

(** A [loc] that can be plotted: it has at least two pieces between commas,
    and [Number] of the first and of the second are numbers, not NaN. *)
Definition numeric (s : string) : bool :=
  match split_comma s with
  | lat :: lng :: _ => negb (isNaN (Number lat)) && negb (isNaN (Number lng))
  | _ => false
  end.

Definition plottable (item : Item) : bool :=
  match loc item with
  | Some s => numeric s
  | None => false
  end.

End WithNumber.

Arguments latlng {num} _.
Arguments icon {num} _.
Arguments popup {num} _.
Arguments rendered {num} _.
Arguments locations {num} _.
Arguments map {num} _.
Arguments console {num} _.

(** The characters of a string. *)
Fixpoint chars (s : string) : list ascii :=
  match s with
  | EmptyString => []
  | String c rest => c :: chars rest
  end.

(** A row counts when its [loc] is there and is not the empty string. *)
Definition has_loc (item : Item) : Prop :=
  loc item <> None /\ loc item <> Some "".

#[global] Instance has_loc_dec (item : Item) : Decision (has_loc item).
Proof. unfold has_loc. apply _. Defined.

(** No comma among the characters of [s]. *)
Definition comma_free (s : string) : Prop := ("," : ascii) ∉ chars s.

End Page.

(** ** The report by country (src/unnamed/part_000 lines 124-129)

    [SELECT country, COUNT(DISTINCT ip) AS distinct_ip_count FROM ip_info
     GROUP BY country ORDER BY country] *)

Module Query.

(** The two columns of [ip_info] the query reads; [None] is SQL NULL. *)
Record Visit : Type := {
  country : option string;
  ip : option string
}.

(** [GROUP BY country]: the rows of one group.  All NULL countries form one
    group. *)
Definition group_of (c : option string) (rows : list Visit) : list Visit :=
  filter (fun v => country v = c) rows.

(** [COUNT(DISTINCT ip)] over a group: the different values of [ip], NULLs
    not counted. *)
Definition count_distinct_ip (group : list Visit) : nat :=
  length (remove_dups (omap ip group)).

Section WithCollation.

(** How the database orders two texts is a matter of the column's collation:
    [collation a b] says that [a] sorts no later than [b]. *)
Variable collation : relation string.
Context `{!RelDecision collation}.

(** [ORDER BY country], ascending: by the collation, NULLs last. *)
Definition country_le (a b : option string) : Prop :=
  match a, b with
  | Some x, Some y => collation x y
  | Some _, None => True
  | None, Some _ => False
  | None, None => True
  end.

#[global] Instance country_le_dec : RelDecision country_le.
Proof. intros [x|] [y|]; simpl; apply _. Defined.

(** The query: one line per group, the groups in order. *)
Definition distinct_ip_by_country (rows : list Visit) : list (option string * nat) :=
  (fun c => (c, count_distinct_ip (group_of c rows)))
    <$> merge_sort country_le (remove_dups (country <$> rows)).

End WithCollation.

(** A table to run the query on. *)
Definition visits : list Visit :=
  [ {| country := Some "US"; ip := Some "8.8.8.8" |};
    {| country := Some "BR"; ip := Some "200.160.2.3" |};
    {| country := Some "US"; ip := Some "8.8.8.8" |};
    {| country := None; ip := Some "192.168.0.1" |};
    {| country := Some "US"; ip := Some "1.1.1.1" |};
    {| country := Some "BR"; ip := None |} ].

End Query.

(** ** More ways to look at a run *)

(** A request passes the gate: its path is allowed and its
    [x-forwarded-for] header is a non-empty string. *)
Definition qualifies (request : NextRequest) : bool :=
  includes ["/"; "/poem"; "/monitoring"] (pathname request) &&
  negb (js_not (headers_get (headers request) "x-forwarded-for")).

(** The address a request forwards, for the requests that pass the gate. *)
Definition forwarded_address (request : NextRequest) : option string :=
  if qualifies request then headers_get (headers request) "x-forwarded-for" else None.

(** The lines written with [console.log]. *)
Definition console_logs (t : list Event) : list string :=
  omap (fun ev => match ev with EvConsoleLog label => Some label | _ => None end) t.

Definition is_object (data : JSValue) : bool :=
  match data with
  | JObject _ => true
  | _ => false
  end.

(** A row that has its identifier and nothing else. *)
Definition blank_row (fresh : string) : Row :=
  {| id := fresh; ip := JUndefined; hostname := JUndefined; city := JUndefined;
     region := JUndefined; country := JUndefined; loc := JUndefined;
     org := JUndefined; postal := JUndefined; timezone := JUndefined |}.

(** A provider that always answers with a JSON value other than [null], and
    a database that accepts every write. *)
Definition always_answers (env : Env) : Prop :=
  forall (w : World) (url : string),
    exists (status : Z) (data : JSValue),
      provider env w url = Responds status (Json data) /\ nullish data = false.

Definition always_accepts (env : Env) : Prop :=
  forall (w : World) (rows : list Row), store_verdict env w rows = None.

(** ** Concrete worlds, used to run the code on examples *)

Module Examples.

(** Identifiers in the shape of a version-4 UUID, numbered by the draw. *)
Definition uuid_of_nat (n : nat) : string :=
  "00000000-0000-4000-8000-" +:+ pretty n.

Definition w0 : World := {| trace := []; ip_info := ∅; uuids_drawn := 0 |}.

Definition request_to (path : string) (hs : list (string * string)) : NextRequest :=
  {| pathname := path; headers := list_to_map hs |}.

Definition monitoring_8888 : NextRequest :=
  request_to "/monitoring" [("x-forwarded-for", "8.8.8.8")].

Definition poem_unknown : NextRequest :=
  request_to "/poem" [("x-forwarded-for", "unknown")].

Definition home_private : NextRequest :=
  request_to "/" [("x-forwarded-for", "192.168.0.1")].

Definition mountain_view_props : gmap string JSValue :=
  list_to_map
    [("ip", JString "8.8.8.8"); ("hostname", JString "dns.google");
     ("city", JString "Mountain View"); ("region", JString "California");
     ("country", JString "US"); ("loc", JString "37.4056,-122.0775");
     ("org", JString "AS15169 Google LLC"); ("postal", JString "94043");
     ("timezone", JString "America/Los_Angeles")].

Definition mountain_view : JSValue := JObject mountain_view_props.

(** The row the middleware writes for [mountain_view] under the first
    identifier. *)
Definition mountain_view_row : Row :=
  {| id := "00000000-0000-4000-8000-0";
     ip := JString "8.8.8.8"; hostname := JString "dns.google";
     city := JString "Mountain View"; region := JString "California";
     country := JString "US"; loc := JString "37.4056,-122.0775";
     org := JString "AS15169 Google LLC"; postal := JString "94043";
     timezone := JString "America/Los_Angeles" |}.

(** The provider's answer for a private address: two properties only. *)
Definition bogon : JSValue :=
  JObject (list_to_map [("ip", JString "192.168.0.1"); ("bogon", JBool true)]).

(** The provider's answer for something that is not an address. *)
Definition wrong_ip : JSValue :=
  JObject (list_to_map
    [("status", JNum 404 0);
     ("error", JObject (list_to_map
        [("title", JString "Wrong ip");
         ("message", JString "Please provide a valid IP address")]))]).

Definition env_with (answer : FetchOutcome) (verdict : option PostgrestError) : Env :=
  {| IP_KEY := Some "t0k3n";
     provider := fun _ _ => answer;
     randomUUID := uuid_of_nat;
     store_verdict := fun _ _ => verdict |}.

Definition env_ok : Env := env_with (Responds 200 (Json mountain_view)) None.
Definition env_bogon : Env := env_with (Responds 200 (Json bogon)) None.
Definition env_404 : Env := env_with (Responds 404 (Json wrong_ip)) None.
Definition env_offline : Env := env_with (Rejects "getaddrinfo ENOTFOUND ipinfo.io") None.
Definition env_html : Env :=
  env_with (Responds 502 (NotJson "Unexpected token < in JSON at position 0")) None.
Definition env_db_down : Env :=
  env_with (Responds 200 (Json mountain_view)) (Some "permission denied for table ip_info").

(** Rows as [select] can return them. *)
Definition rows : list Page.Item :=
  [ {| Page.loc := Some "37.4056,-122.0775"; Page.city := Some "Mountain View";
       Page.country := Some "US"; Page.hostname := Some "dns.google" |};
    {| Page.loc := None; Page.city := None; Page.country := None;
       Page.hostname := None |};
    {| Page.loc := Some ""; Page.city := Some "Lisbon"; Page.country := Some "PT";
       Page.hostname := None |};
    {| Page.loc := Some "-23.5475,-46.6361"; Page.city := Some "Sao Paulo";
       Page.country := Some "BR"; Page.hostname := None |} ].

(** A stand-in for JavaScript numbers on plain decimal texts.  A text made of
    an optional sign and digits with at most one point among them (and at
    least one digit) converts to the number it writes, and the empty text to
    zero; any other text is taken for NaN.  That is what [Number] gives
    unless the text is padded with white space, has an exponent, or is
    written as [Infinity] or in hexadecimal, octal or binary. *)
Inductive Decimal : Type :=
| NaN
| Written (text : string).

Definition is_digit (c : ascii) : bool :=
  (48 <=? N_of_ascii c)%N && (N_of_ascii c <=? 57)%N.

(** Digits with at most one point: [point] says whether one is still
    allowed, [seen] whether a digit was met. *)
Fixpoint digits_and_point (s : string) (point seen : bool) : bool :=
  match s with
  | EmptyString => seen
  | String c rest =>
      if is_digit c then digits_and_point rest point true
      else if Ascii.eqb c "." then point && digits_and_point rest false seen
      else false
  end.

Definition decimal_text (s : string) : bool :=
  match s with
  | String c rest =>
      if Ascii.eqb c "-" || Ascii.eqb c "+" then digits_and_point rest true false
      else digits_and_point s true false
  | EmptyString => false
  end.

Definition Number_decimal (s : string) : Decimal :=
  if String.eqb s "" then Written "0"
  else if decimal_text s then Written s
  else NaN.

Definition isNaN_decimal (d : Decimal) : bool :=
  match d with
  | NaN => true
  | Written _ => false
  end.

(** Two rows with a [loc], the first of which is no pair of numbers. *)
Definition bad_rows : list Page.Item :=
  [ {| Page.loc := Some "abc,def"; Page.city := Some "Nowhere"; Page.country := None;
       Page.hostname := None |};
    {| Page.loc := Some "1,2"; Page.city := Some "Somewhere"; Page.country := None;
       Page.hostname := None |} ].

End Examples.

(** More worlds and requests to run the code on. *)

Module Scenarios.

Definition env_null_body : Env := Examples.env_with (Responds 200 (Json JNull)) None.

Definition env_rate_limited : Env :=
  Examples.env_with (Responds 429 (Json (JString "Rate limit exceeded"))) None.

Definition env_no_key : Env :=
  {| IP_KEY := None;
     provider := fun _ _ => Responds 403 (Json Examples.wrong_ip);
     randomUUID := Examples.uuid_of_nat;
     store_verdict := fun _ _ => None |}.

Definition favicon : NextRequest :=
  Examples.request_to "/favicon.ico" [("x-forwarded-for", "8.8.8.8")].

Definition poem_no_header : NextRequest := Examples.request_to "/poem" [].

Definition home_9999 : NextRequest :=
  Examples.request_to "/" [("x-forwarded-for", "9.9.9.9")].

Definition monitoring_8888_as (user : string) : NextRequest :=
  Examples.request_to "/monitoring" [("x-forwarded-for", "8.8.8.8"); ("user_id", user)].

End Scenarios.

(** * Properties of the middleware *)

Section MiddlewareFacts.

Context (env : Env).

Lemma includes_elem_of (xs : list string) (x : string) :
  includes xs x = true <-> x ∈ xs.
Proof.
  unfold includes. rewrite existsb_exists. split.
  - intros (y & Hin & Heq). apply String.eqb_eq in Heq. subst y.
    by apply list_elem_of_In.
  - intros Hin. exists x. split; [by apply list_elem_of_In | apply String.eqb_refl].
Qed.

Lemma includes_not_elem_of (xs : list string) (x : string) :
  includes xs x = false <-> x ∉ xs.
Proof.
  rewrite <- includes_elem_of. destruct (includes xs x); split; congruence.
Qed.

Lemma js_not_true (ip : option string) :
  js_not ip = true <-> ip = None \/ ip = Some "".
Proof.
  destruct ip as [s|]; simpl.
  - rewrite String.eqb_eq. split; [intros ->; by right | intros [?|?]; congruence].
  - split; [by left | done].
Qed.

Lemma js_not_false (ip : option string) :
  js_not ip = false <-> exists V, ip = Some V /\ V <> "".
Proof.
  destruct ip as [s|]; simpl.
  - rewrite String.eqb_neq. split; [eauto | intros (V & [= ->] & ?); done].
  - split; [done | intros (V & ? & _); done].
Qed.

(** The URL the code builds is the provider's URL for the header value. *)
Lemma url_of_header (V : string) :
  IPINFO_API_URL +:+ "/" +:+ interpolate_nullable (Some V)
    +:+ "/json?token=" +:+ interpolate_optional (IP_KEY env) = lookup_url env V.
Proof. reflexivity. Qed.

Lemma provider_calls_app (t1 t2 : list Event) :
  provider_calls (t1 ++ t2) = provider_calls t1 ++ provider_calls t2.
Proof. apply omap_app. Qed.

Lemma storage_writes_app (t1 t2 : list Event) :
  storage_writes (t1 ++ t2) = storage_writes t1 ++ storage_writes t2.
Proof. apply omap_app. Qed.

Lemma console_errors_app (t1 t2 : list Event) :
  console_errors (t1 ++ t2) = console_errors t1 ++ console_errors t2.
Proof. apply omap_app. Qed.

(** *** The lookup, case by case *)

Lemma get_property_read (data : JSValue) (name : string) (w : World) :
  nullish data = false -> get_property data name w = (Ok (read data name), w).
Proof. by destruct data. Qed.

Lemma get_property_nullish (data : JSValue) (name : string) (w : World) :
  nullish data = true -> exists reason, get_property data name w = (Throw (TypeError reason), w).
Proof. destruct data; try done; intros _; eexists; reflexivity. Qed.

Lemma lookup_rejected (V reason : string) (w : World) :
  provider env w (lookup_url env V) = Rejects reason ->
  getIpInfoFromIp env (Some V) w =
    (Ok None, log (EvConsoleError "Error fetching IP info:" (LogExn (FetchFailed reason)))
                (log (EvFetch (lookup_url env V)) w)).
Proof.
  intros Hp. unfold getIpInfoFromIp, try_catch, bind, fetch.
  rewrite url_of_header, Hp. reflexivity.
Qed.

Lemma lookup_not_json (V reason : string) (status : Z) (w : World) :
  provider env w (lookup_url env V) = Responds status (NotJson reason) ->
  getIpInfoFromIp env (Some V) w =
    (Ok None, log (EvConsoleError "Error fetching IP info:" (LogExn (JsonSyntaxError reason)))
                (log (EvFetch (lookup_url env V)) w)).
Proof.
  intros Hp. unfold getIpInfoFromIp, try_catch, bind, fetch.
  rewrite url_of_header, Hp. reflexivity.
Qed.

Lemma lookup_nullish (V : string) (status : Z) (data : JSValue) (w : World) :
  provider env w (lookup_url env V) = Responds status (Json data) ->
  nullish data = true ->
  exists reason,
    getIpInfoFromIp env (Some V) w =
      (Ok None, log (EvConsoleError "Error fetching IP info:" (LogExn (TypeError reason)))
                  (log (EvFetch (lookup_url env V)) w)).
Proof.
  intros Hp Hn. unfold getIpInfoFromIp, try_catch, bind, fetch.
  rewrite url_of_header, Hp. simpl.
  destruct data; try done; eexists; reflexivity.
Qed.

Lemma lookup_json (V : string) (status : Z) (data : JSValue) (w : World) :
  provider env w (lookup_url env V) = Responds status (Json data) ->
  nullish data = false ->
  getIpInfoFromIp env (Some V) w =
    (Ok (Some (fields_of data)), log (EvFetch (lookup_url env V)) w).
Proof.
  intros Hp Hn. unfold getIpInfoFromIp, try_catch, bind, fetch.
  rewrite url_of_header, Hp. simpl.
  rewrite !(get_property_read _ _ _ Hn). reflexivity.
Qed.

(** X25.  The status of the response plays no part in the lookup: two
    providers that send the same body under different statuses get the same
    result and the same log. *)
Lemma lookup_ignores_status
    (env' : Env) (V : string) (w : World) (status status' : Z) (body : Body) :
  IP_KEY env' = IP_KEY env ->
  provider env w (lookup_url env V) = Responds status body ->
  provider env' w (lookup_url env' V) = Responds status' body ->
  getIpInfoFromIp env' (Some V) w = getIpInfoFromIp env (Some V) w.
Proof.
  intros Hkey Hp Hp'.
  assert (lookup_url env' V = lookup_url env V) as Hurl
    by (unfold lookup_url; by rewrite Hkey).
  unfold getIpInfoFromIp, try_catch, bind, fetch.
  rewrite Hkey. rewrite url_of_header. rewrite <- Hurl at 1 2.
  rewrite Hp'. rewrite Hurl. rewrite Hp. reflexivity.
Qed.

(** *** The write, case by case *)

Lemma save_nothing (w : World) : saveIpInfoToDatabase env None w = (Ok tt, w).
Proof. reflexivity. Qed.

Lemma save_accepted (info : IpInfo) (w : World) :
  let r := row_of (randomUUID env (uuids_drawn w)) info in
  store_verdict env (drew_uuid w) [r] = None ->
  saveIpInfoToDatabase env (Some info) w =
    (Ok tt, stored r (log (EvUpsert "ip_info" [r]) (drew_uuid w))).
Proof.
  intros r Hv. unfold saveIpInfoToDatabase, bind, crypto_randomUUID, upsert.
  fold (drew_uuid w). fold (row_of (randomUUID env (uuids_drawn w)) info). fold r.
  rewrite Hv. reflexivity.
Qed.

Lemma save_rejected (info : IpInfo) (w : World) (e : PostgrestError) :
  let r := row_of (randomUUID env (uuids_drawn w)) info in
  store_verdict env (drew_uuid w) [r] = Some e ->
  saveIpInfoToDatabase env (Some info) w =
    (Ok tt, log (EvConsoleError "Error saving IP info to Supabase:" (LogDb e))
              (log (EvUpsert "ip_info" [r]) (drew_uuid w))).
Proof.
  intros r Hv. unfold saveIpInfoToDatabase, bind, crypto_randomUUID, upsert.
  fold (drew_uuid w). fold (row_of (randomUUID env (uuids_drawn w)) info). fold r.
  rewrite Hv. reflexivity.
Qed.

(** *** The gate *)

Lemma middleware_forbidden (request : NextRequest) (w : World) :
  pathname request ∉ ["/"; "/poem"; "/monitoring"] ->
  middleware env request w =
    (Ok (NextResponse_json (error_object "Access to this endpoint is not allowed") 403), w).
Proof.
  intros Hpath. unfold middleware.
  apply includes_not_elem_of in Hpath. by rewrite Hpath.
Qed.

Lemma middleware_no_ip (request : NextRequest) (w : World) :
  pathname request ∈ ["/"; "/poem"; "/monitoring"] ->
  js_not (headers request !! "x-forwarded-for") = true ->
  middleware env request w =
    (Ok (NextResponse_json (error_object "IP not found") 400), w).
Proof.
  intros Hpath Hip. unfold middleware.
  apply includes_elem_of in Hpath. rewrite Hpath. simpl.
  unfold headers_get. by rewrite Hip.
Qed.

Lemma middleware_allowed (request : NextRequest) (V : string) (w : World) :
  pathname request ∈ ["/"; "/poem"; "/monitoring"] ->
  headers request !! "x-forwarded-for" = Some V -> V <> "" ->
  middleware env request w =
    match getIpInfoFromIp env (Some V) w with
    | (Ok ipInfo, w1) =>
        match saveIpInfoToDatabase env ipInfo w1 with
        | (Ok _, w2) => (Ok NextResponse_next, w2)
        | (Throw e, w2) => (Throw e, w2)
        end
    | (Throw e, w1) => (Throw e, w1)
    end.
Proof.
  intros Hpath Hhdr HV. unfold middleware.
  apply includes_elem_of in Hpath. rewrite Hpath. simpl.
  unfold headers_get. rewrite Hhdr.
  assert (js_not (Some V) = false) as -> by (apply js_not_false; eauto).
  unfold bind. destruct (getIpInfoFromIp env (Some V) w) as [[ipInfo|e] w1]; [|done].
  by destruct (saveIpInfoToDatabase env ipInfo w1) as [[[]|e] w2].
Qed.

End MiddlewareFacts.

(** *** Every run of a request that passes the gate *)

Lemma middleware_records (env : Env) (request : NextRequest) (V : string) (w : World) :
  pathname request ∈ ["/"; "/poem"; "/monitoring"] ->
  headers request !! "x-forwarded-for" = Some V -> V <> "" ->
  exists w', middleware env request w = (Ok NextResponse_next, w') /\ Recorded env V w w'.
Proof.
  intros Hpath Hhdr HV. rewrite (middleware_allowed env request V w Hpath Hhdr HV).
  destruct (provider env w (lookup_url env V)) as [reason|status [reason|data]] eqn:Hp.
  - rewrite (lookup_rejected env V reason w Hp), save_nothing.
    eexists; split; [reflexivity|]. apply lookup_threw. by rewrite Hp.
  - rewrite (lookup_not_json env V reason status w Hp), save_nothing.
    eexists; split; [reflexivity|]. apply lookup_threw. by rewrite Hp.
  - destruct (nullish data) eqn:Hn.
    + destruct (lookup_nullish env V status data w Hp Hn) as [reason ->].
      rewrite save_nothing. eexists; split; [reflexivity|].
      apply lookup_threw. rewrite Hp. eauto.
    + rewrite (lookup_json env V status data w Hp Hn).
      set (w1 := log (EvFetch (lookup_url env V)) w).
      destruct (store_verdict env (drew_uuid w1)
                  [row_of (randomUUID env (uuids_drawn w1)) (fields_of data)])
        as [e|] eqn:Hv.
      * rewrite (save_rejected env _ w1 e Hv).
        eexists; split; [reflexivity|].
        by apply (write_rejected env V w status data e).
      * rewrite (save_accepted env _ w1 Hv).
        eexists; split; [reflexivity|].
        by apply (write_accepted env V w status data).
Qed.

(** The provider is asked once, about the header value, whatever follows. *)
Lemma Recorded_provider_calls (env : Env) (V : string) (w w' : World) :
  Recorded env V w w' ->
  provider_calls (trace w') = provider_calls (trace w) ++ [lookup_url env V].
Proof.
  destruct 1; simpl; rewrite !provider_calls_app; simpl; by rewrite ?app_nil_r.
Qed.

(** At most one write, of one row. *)
Lemma Recorded_storage_writes (env : Env) (V : string) (w w' : World) :
  Recorded env V w w' ->
  storage_writes (trace w') = storage_writes (trace w) \/
  exists status data,
    provider env w (lookup_url env V) = Responds status (Json data) /\
    nullish data = false /\
    storage_writes (trace w') =
      storage_writes (trace w) ++
        [("ip_info", [row_of (randomUUID env (uuids_drawn w)) (fields_of data)])].
Proof.
  destruct 1 as [e He|status data Hp Hn w1 r Hv|status data e Hp Hn w1 r Hv].
  - left. simpl. rewrite !storage_writes_app. simpl. by rewrite !app_nil_r.
  - right. exists status, data. split; [done|]. split; [done|].
    simpl. rewrite !storage_writes_app. simpl. by rewrite app_nil_r.
  - right. exists status, data. split; [done|]. split; [done|].
    simpl. rewrite !storage_writes_app. simpl. by rewrite !app_nil_r.
Qed.

(** The table keeps holding only rows under identifiers drawn so far. *)
Lemma ids_drawn_drew (env : Env) (w : World) : ids_drawn env w -> ids_drawn env (drew_uuid w).
Proof.
  intros Hw k r Hk. destruct (Hw k r Hk) as (Hid & n & Hn & Hu).
  split; [done|]. exists n. simpl. split; [lia | done].
Qed.

Lemma ids_drawn_log (env : Env) (ev : Event) (w : World) :
  ids_drawn env w -> ids_drawn env (log ev w).
Proof. intros Hw k r Hk. exact (Hw k r Hk). Qed.

Lemma Recorded_ids_drawn (env : Env) (V : string) (w w' : World) :
  Recorded env V w w' -> ids_drawn env w -> ids_drawn env w'.
Proof.
  destruct 1 as [e He|status data Hp Hn w1 r Hv|status data e Hp Hn w1 r Hv]; intros Hw.
  - by do 2 apply ids_drawn_log.
  - intros k r' Hk. simpl in Hk.
    destruct (decide (id r = k)) as [Heq|Hne].
    + rewrite <- Heq, lookup_insert_eq in Hk. injection Hk as <-.
      split; [done|]. exists (uuids_drawn w). simpl. split; [lia | by rewrite <- Heq].
    + rewrite lookup_insert_ne in Hk by done.
      destruct (Hw k r' Hk) as (Hid & n & Hlt & Hu).
      split; [done|]. exists n. simpl. split; [lia | done].
  - do 2 apply ids_drawn_log. by apply ids_drawn_drew, ids_drawn_log.
Qed.

(** Under a collision-free generator the next identifier is not in the
    table yet. *)
Lemma next_uuid_fresh (env : Env) (w : World) :
  collision_free env -> ids_drawn env w ->
  ip_info w !! randomUUID env (uuids_drawn w) = None.
Proof.
  intros Hinj Hw. destruct (ip_info w !! randomUUID env (uuids_drawn w)) as [r|] eqn:Hk; [|done].
  destruct (Hw _ _ Hk) as (_ & n & Hlt & Hu). apply Hinj in Hu. lia.
Qed.

(** *** Invariants of a run *)

(** The middleware never throws: whatever the request and the collaborators
    do, it resolves to a response. *)
Lemma middleware_never_throws (env : Env) (request : NextRequest) (w : World) :
  exists (r : NextResponse) (w' : World), middleware env request w = (Ok r, w').
Proof.
  destruct (includes ["/"; "/poem"; "/monitoring"] (pathname request)) eqn:Hpath.
  - apply includes_elem_of in Hpath.
    destruct (js_not (headers request !! "x-forwarded-for")) eqn:Hip.
    + rewrite (middleware_no_ip env request w Hpath Hip). eauto.
    + apply js_not_false in Hip as (V & Hhdr & HV).
      destruct (middleware_records env request V w Hpath Hhdr HV) as (w' & -> & _). eauto.
  - apply includes_not_elem_of in Hpath.
    rewrite (middleware_forbidden env request w Hpath). eauto.
Qed.

Lemma middleware_ids_drawn (env : Env) (request : NextRequest) (w : World) :
  ids_drawn env w -> ids_drawn env (snd (middleware env request w)).
Proof.
  intros Hw.
  destruct (includes ["/"; "/poem"; "/monitoring"] (pathname request)) eqn:Hpath.
  - apply includes_elem_of in Hpath.
    destruct (js_not (headers request !! "x-forwarded-for")) eqn:Hip.
    + by rewrite (middleware_no_ip env request w Hpath Hip).
    + apply js_not_false in Hip as (V & Hhdr & HV).
      destruct (middleware_records env request V w Hpath Hhdr HV) as (w' & -> & Hrec).
      by apply (Recorded_ids_drawn env V w).
  - apply includes_not_elem_of in Hpath.
    by rewrite (middleware_forbidden env request w Hpath).
Qed.

(** However many requests are served, every row the table holds sits under
    an identifier that was drawn for it; an empty table is a place to start
    from. *)
Lemma serve_ids_drawn (env : Env) (requests : list NextRequest) (w : World) :
  ids_drawn env w -> ids_drawn env (serve env requests w).
Proof.
  unfold serve. revert w. induction requests as [|request requests IH]; intros w Hw.
  - done.
  - simpl. by apply IH, middleware_ids_drawn.
Qed.

(** Closes a goal that gives the two runs and compares what they did. *)
Ltac same_effects :=
  simpl; repeat eexists; simpl;
  rewrite ?provider_calls_app, ?storage_writes_app; simpl;
  rewrite ?app_nil_r; first [done | by left | by right].

(** X24.  The two copies of the middleware treat a request alike.  They
    return the same response, but for the message in the body of the 400
    ([IP not found] in the one, [IP não encontrado] in the other); and they
    make the same provider calls and the same writes, leave the same table
    and draw the same number of identifiers. *)
Lemma variant_agrees (env : Env) (request : NextRequest) (w : World) :
  exists (r r' : NextResponse) (w1 w1' : World),
    middleware env request w = (Ok r, w1) /\
    Variant.middleware env request w = (Ok r', w1') /\
    (r = r' \/
     r = NextResponse_json (JObject {[ "error" := JString "IP not found" ]}) 400 /\
     r' = NextResponse_json (JObject {[ "error" := JString "IP não encontrado" ]}) 400) /\
    status_of r = status_of r' /\
    provider_calls (trace w1) = provider_calls (trace w1') /\
    storage_writes (trace w1) = storage_writes (trace w1') /\
    ip_info w1 = ip_info w1' /\
    uuids_drawn w1 = uuids_drawn w1'.
Proof.
  unfold middleware, Variant.middleware, includes. simpl.
  rewrite !orb_false_r.
  destruct (String.eqb (pathname request) "/"
            || String.eqb (pathname request) "/poem"
            || String.eqb (pathname request) "/monitoring") eqn:Hgate.
  - assert (negb (String.eqb (pathname request) "/")
            && negb (String.eqb (pathname request) "/poem")
            && negb (String.eqb (pathname request) "/monitoring") = false) as ->.
    { rewrite <- !negb_orb. by rewrite Hgate. }
    rewrite orb_assoc, Hgate. simpl.
    destruct (js_not (headers_get (headers request) "x-forwarded-for")); [same_effects|].
    unfold bind, getIpInfoFromIp, Variant.getIpInfoFromIp, try_catch, bind, fetch.
    destruct (provider env w _) as [reason|status [reason|data]]; simpl;
      [same_effects | same_effects |].
    destruct data;
      unfold get_property, throw, ret, bind, console_error, console_log,
        Variant.getUserIdFromRequest, saveIpInfoToDatabase,
        Variant.saveIpInfoToDatabase, crypto_randomUUID, upsert, bind, ret;
      simpl; try same_effects;
      match goal with
      | |- context [store_verdict env ?w1 ?rows] => destruct (store_verdict env w1 rows)
      end; same_effects.
  - assert (negb (String.eqb (pathname request) "/")
            && negb (String.eqb (pathname request) "/poem")
            && negb (String.eqb (pathname request) "/monitoring") = true) as ->.
    { rewrite <- !negb_orb. by rewrite Hgate. }
    rewrite orb_assoc, Hgate. same_effects.
Qed.

(** * The request gate *)

(** C1.  A request whose path is none of [/], [/poem], [/monitoring] is
    answered with status 403 and the body
    [{ error: "Access to this endpoint is not allowed" }]; the world is left
    as it was: the provider is not called and nothing is written. *)
Theorem forbidden_path_gets_403 (env : Env) (request : NextRequest) (w : World) :
  pathname request ∉ ["/"; "/poem"; "/monitoring"] ->
  exists w',
    middleware env request w =
      (Ok (NextResponse_json
             (JObject {[ "error" := JString "Access to this endpoint is not allowed" ]})
             403), w') /\
    provider_calls (trace w') = provider_calls (trace w) /\
    storage_writes (trace w') = storage_writes (trace w) /\
    ip_info w' = ip_info w /\
    w' = w.
Proof.
  intros Hpath. exists w. by rewrite (middleware_forbidden env request w Hpath).
Qed.

Lemma forbidden_path_gets_403_witness :
  ("/secret-admin" ∉ ["/"; "/poem"; "/monitoring"]) /\
  exists w',
    middleware Examples.env_ok
      (Examples.request_to "/secret-admin" [("x-forwarded-for", "8.8.8.8")])
      Examples.w0 =
      (Ok (NextResponse_json
             (JObject {[ "error" := JString "Access to this endpoint is not allowed" ]})
             403), w') /\
    provider_calls (trace w') = provider_calls (trace Examples.w0) /\
    storage_writes (trace w') = storage_writes (trace Examples.w0) /\
    ip_info w' = ip_info Examples.w0 /\
    w' = Examples.w0.
Proof.
  assert ("/secret-admin" ∉ ["/"; "/poem"; "/monitoring"]) as Hpath
    by (apply includes_not_elem_of; reflexivity).
  split; [exact Hpath|].
  exact (forbidden_path_gets_403 Examples.env_ok
           (Examples.request_to "/secret-admin" [("x-forwarded-for", "8.8.8.8")])
           Examples.w0 Hpath).
Defined.

(** C2.  A request to an allowed path that carries no [x-forwarded-for]
    header is answered with status 400 and the body
    [{ error: "IP not found" }]; the provider is not called and nothing is
    written. *)
Theorem missing_header_gets_400 (env : Env) (request : NextRequest) (w : World) :
  pathname request ∈ ["/"; "/poem"; "/monitoring"] ->
  headers request !! "x-forwarded-for" = None ->
  exists w',
    middleware env request w =
      (Ok (NextResponse_json (JObject {[ "error" := JString "IP not found" ]}) 400), w') /\
    provider_calls (trace w') = provider_calls (trace w) /\
    storage_writes (trace w') = storage_writes (trace w) /\
    ip_info w' = ip_info w /\
    w' = w.
Proof.
  intros Hpath Hhdr. exists w.
  rewrite (middleware_no_ip env request w Hpath); [done|]. by rewrite Hhdr.
Qed.

Lemma missing_header_gets_400_witness :
  ("/poem" ∈ ["/"; "/poem"; "/monitoring"]) /\
  exists w',
    middleware Examples.env_ok (Examples.request_to "/poem" [("user-agent", "curl/8.5.0")])
      Examples.w0 =
      (Ok (NextResponse_json (JObject {[ "error" := JString "IP not found" ]}) 400), w') /\
    provider_calls (trace w') = provider_calls (trace Examples.w0) /\
    storage_writes (trace w') = storage_writes (trace Examples.w0) /\
    ip_info w' = ip_info Examples.w0 /\
    w' = Examples.w0.
Proof.
  assert ("/poem" ∈ ["/"; "/poem"; "/monitoring"]) as Hpath
    by (apply includes_elem_of; reflexivity).
  split; [exact Hpath|].
  apply (missing_header_gets_400 Examples.env_ok
           (Examples.request_to "/poem" [("user-agent", "curl/8.5.0")])
           Examples.w0 Hpath).
  reflexivity.
Defined.

(** C10.  An [x-forwarded-for] header that is present but empty is treated as
    a missing one: on an allowed path the answer is the same 400 response
    that the request without the header gets, the provider is not called and
    nothing is written. *)
Theorem empty_header_gets_400 (env : Env) (request : NextRequest) (w : World) :
  pathname request ∈ ["/"; "/poem"; "/monitoring"] ->
  headers request !! "x-forwarded-for" = Some "" ->
  exists w',
    middleware env request w =
      (Ok (NextResponse_json (JObject {[ "error" := JString "IP not found" ]}) 400), w') /\
    middleware env request w =
      middleware env
        {| pathname := pathname request;
           headers := delete "x-forwarded-for" (headers request) |} w /\
    provider_calls (trace w') = provider_calls (trace w) /\
    storage_writes (trace w') = storage_writes (trace w) /\
    ip_info w' = ip_info w /\
    w' = w.
Proof.
  intros Hpath Hhdr. exists w.
  rewrite (middleware_no_ip env request w Hpath) by (by rewrite Hhdr).
  rewrite (middleware_no_ip env _ w) by (simpl; by rewrite ?lookup_delete_eq).
  done.
Qed.

Lemma empty_header_gets_400_witness :
  ("/" ∈ ["/"; "/poem"; "/monitoring"]) /\
  exists w',
    middleware Examples.env_ok (Examples.request_to "/" [("x-forwarded-for", "")])
      Examples.w0 =
      (Ok (NextResponse_json (JObject {[ "error" := JString "IP not found" ]}) 400), w') /\
    middleware Examples.env_ok (Examples.request_to "/" [("x-forwarded-for", "")])
      Examples.w0 =
      middleware Examples.env_ok
        {| pathname := "/";
           headers := delete "x-forwarded-for"
                        (headers (Examples.request_to "/" [("x-forwarded-for", "")])) |}
        Examples.w0 /\
    provider_calls (trace w') = provider_calls (trace Examples.w0) /\
    storage_writes (trace w') = storage_writes (trace Examples.w0) /\
    ip_info w' = ip_info Examples.w0 /\
    w' = Examples.w0.
Proof.
  assert ("/" ∈ ["/"; "/poem"; "/monitoring"]) as Hpath
    by (apply includes_elem_of; reflexivity).
  split; [exact Hpath|].
  apply (empty_header_gets_400 Examples.env_ok
           (Examples.request_to "/" [("x-forwarded-for", "")]) Examples.w0 Hpath).
  reflexivity.
Defined.

(** C5.  On an allowed path, a non-empty [x-forwarded-for] value [V] goes to
    the provider as it is: the request makes exactly one provider call, a
    GET of base URL, slash, [V], [/json?token=] and the token, with [V]
    neither split, trimmed nor checked. *)
Theorem header_value_sent_verbatim
    (env : Env) (request : NextRequest) (V : string) (w : World) :
  pathname request ∈ ["/"; "/poem"; "/monitoring"] ->
  headers request !! "x-forwarded-for" = Some V ->
  V <> "" ->
  exists w',
    middleware env request w = (Ok NextResponse_next, w') /\
    provider_calls (trace w') =
      provider_calls (trace w) ++
        ["https://ipinfo.io/" +:+ V +:+ "/json?token=" +:+ interpolate_optional (IP_KEY env)].
Proof.
  intros Hpath Hhdr HV.
  destruct (middleware_records env request V w Hpath Hhdr HV) as (w' & Hrun & Hrec).
  exists w'. split; [done|]. by apply Recorded_provider_calls.
Qed.

Lemma header_value_sent_verbatim_witness :
  ("/monitoring" ∈ ["/"; "/poem"; "/monitoring"]) /\
  "203.0.113.7, 10.0.0.1,not-an-ip" <> "" /\
  exists w',
    middleware Examples.env_offline
      (Examples.request_to "/monitoring"
         [("x-forwarded-for", "203.0.113.7, 10.0.0.1,not-an-ip")])
      Examples.w0 = (Ok NextResponse_next, w') /\
    provider_calls (trace w') =
      provider_calls (trace Examples.w0) ++
        ["https://ipinfo.io/" +:+ "203.0.113.7, 10.0.0.1,not-an-ip" +:+ "/json?token="
           +:+ interpolate_optional (IP_KEY Examples.env_offline)].
Proof.
  assert ("/monitoring" ∈ ["/"; "/poem"; "/monitoring"]) as Hpath
    by (apply includes_elem_of; reflexivity).
  split; [exact Hpath|]. split; [discriminate|].
  apply (header_value_sent_verbatim Examples.env_offline
           (Examples.request_to "/monitoring"
              [("x-forwarded-for", "203.0.113.7, 10.0.0.1,not-an-ip")])
           "203.0.113.7, 10.0.0.1,not-an-ip" Examples.w0 Hpath).
  - reflexivity.
  - discriminate.
Defined.

(** * The recorder *)

(** A request that passes the gate and gets a non-null JSON body back goes on
    to exactly one write, whose fate is the database's verdict. *)
Lemma middleware_json
    (env : Env) (request : NextRequest) (V : string) (w : World)
    (status : Z) (data : JSValue) :
  pathname request ∈ ["/"; "/poem"; "/monitoring"] ->
  headers request !! "x-forwarded-for" = Some V -> V <> "" ->
  provider env w (lookup_url env V) = Responds status (Json data) ->
  nullish data = false ->
  let w1 := drew_uuid (log (EvFetch (lookup_url env V)) w) in
  let r := row_of (randomUUID env (uuids_drawn w)) (fields_of data) in
  middleware env request w =
    (Ok NextResponse_next,
     match store_verdict env w1 [r] with
     | None => stored r (log (EvUpsert "ip_info" [r]) w1)
     | Some e =>
         log (EvConsoleError "Error saving IP info to Supabase:" (LogDb e))
           (log (EvUpsert "ip_info" [r]) w1)
     end).
Proof.
  intros Hpath Hhdr HV Hp Hn w1 r.
  rewrite (middleware_allowed env request V w Hpath Hhdr HV).
  rewrite (lookup_json env V status data w Hp Hn).
  destruct (store_verdict env w1 [r]) as [e|] eqn:Hv.
  - by rewrite (save_rejected env _ _ e Hv).
  - by rewrite (save_accepted env _ _ Hv).
Qed.

(** C3, as the code has it.  When the provider cannot be reached, or answers
    with a body that is not JSON, or with the JSON value [null] -- under any
    status, success or not -- the lookup returns [null], the failure is
    logged, nothing is written and the request gets its normal response.  A
    response whose body parses to a JSON value other than [null] is no failed
    lookup for the code, whatever its status: the lookup returns the record
    read off the body, one write is attempted, and the request gets its
    normal response. *)
Theorem lookup_fails_without_a_value
    (env : Env) (request : NextRequest) (V : string) (w : World) :
  pathname request ∈ ["/"; "/poem"; "/monitoring"] ->
  headers request !! "x-forwarded-for" = Some V ->
  V <> "" ->
  exists w' : World,
    middleware env request w = (Ok NextResponse_next, w') /\
    (without_value (provider env w (lookup_url env V)) = true ->
     getIpInfoFromIp env (Some V) w = (Ok None, w') /\
     storage_writes (trace w') = storage_writes (trace w) /\
     ip_info w' = ip_info w /\
     exists e : Exn,
       console_errors (trace w') =
         console_errors (trace w) ++ [("Error fetching IP info:", LogExn e)]) /\
    (forall (status : Z) (data : JSValue),
       provider env w (lookup_url env V) = Responds status (Json data) ->
       nullish data = false ->
       fst (getIpInfoFromIp env (Some V) w) = Ok (Some (fields_of data)) /\
       storage_writes (trace w') =
         storage_writes (trace w) ++
           [("ip_info", [row_of (randomUUID env (uuids_drawn w)) (fields_of data)])]).
Proof.
  intros Hpath Hhdr HV.
  destruct (provider env w (lookup_url env V)) as [reason|status [reason|data]] eqn:Hp.
  - rewrite (middleware_allowed env request V w Hpath Hhdr HV).
    rewrite (lookup_rejected env V reason w Hp), save_nothing.
    eexists. split; [reflexivity|]. split; [|done]. intros _.
    split; [reflexivity|]. simpl.
    rewrite !storage_writes_app, !console_errors_app. simpl. rewrite !app_nil_r.
    split; [done|]. split; [done|]. by eexists.
  - rewrite (middleware_allowed env request V w Hpath Hhdr HV).
    rewrite (lookup_not_json env V reason status w Hp), save_nothing.
    eexists. split; [reflexivity|]. split; [|done]. intros _.
    split; [reflexivity|]. simpl.
    rewrite !storage_writes_app, !console_errors_app. simpl. rewrite !app_nil_r.
    split; [done|]. split; [done|]. by eexists.
  - destruct (nullish data) eqn:Hn.
    + rewrite (middleware_allowed env request V w Hpath Hhdr HV).
      destruct (lookup_nullish env V status data w Hp Hn) as [reason ->].
      rewrite save_nothing.
      eexists. split; [reflexivity|]. split.
      * intros _. split; [reflexivity|]. simpl.
        rewrite !storage_writes_app, !console_errors_app. simpl. rewrite !app_nil_r.
        split; [done|]. split; [done|]. by eexists.
      * intros status' data' [= -> ->] Hn'. congruence.
    + rewrite (middleware_json env request V w status data Hpath Hhdr HV Hp Hn).
      eexists. split; [reflexivity|]. split.
      * simpl. by rewrite Hn.
      * intros status' data' [= <- <-] _.
        rewrite (lookup_json env V status data w Hp Hn). split; [done|].
        destruct (store_verdict env _ _); simpl;
          rewrite !storage_writes_app; simpl; by rewrite ?app_nil_r.
Qed.

Lemma lookup_fails_without_a_value_witness :
  (exists w' : World,
     middleware Examples.env_html Examples.monitoring_8888 Examples.w0 =
       (Ok NextResponse_next, w') /\
     getIpInfoFromIp Examples.env_html (Some "8.8.8.8") Examples.w0 = (Ok None, w') /\
     storage_writes (trace w') = storage_writes (trace Examples.w0) /\
     ip_info w' = ip_info Examples.w0 /\
     exists e : Exn,
       console_errors (trace w') =
         console_errors (trace Examples.w0) ++ [("Error fetching IP info:", LogExn e)]) /\
  (exists w' : World,
     middleware Examples.env_404 Examples.poem_unknown Examples.w0 =
       (Ok NextResponse_next, w') /\
     fst (getIpInfoFromIp Examples.env_404 (Some "unknown") Examples.w0) =
       Ok (Some (fields_of Examples.wrong_ip)) /\
     storage_writes (trace w') =
       storage_writes (trace Examples.w0) ++
         [("ip_info",
           [row_of (randomUUID Examples.env_404 (uuids_drawn Examples.w0))
              (fields_of Examples.wrong_ip)])]).
Proof.
  assert ("/monitoring" ∈ ["/"; "/poem"; "/monitoring"]) as Hmonitoring
    by (apply includes_elem_of; reflexivity).
  assert ("/poem" ∈ ["/"; "/poem"; "/monitoring"]) as Hpoem
    by (apply includes_elem_of; reflexivity).
  split.
  - destruct (lookup_fails_without_a_value Examples.env_html Examples.monitoring_8888
                "8.8.8.8" Examples.w0 Hmonitoring eq_refl ltac:(discriminate))
      as (w' & Hrun & Hfailed & _).
    exists w'. split; [exact Hrun|]. exact (Hfailed eq_refl).
  - destruct (lookup_fails_without_a_value Examples.env_404 Examples.poem_unknown
                "unknown" Examples.w0 Hpoem eq_refl ltac:(discriminate))
      as (w' & Hrun & _ & Hrecord).
    exists w'. split; [exact Hrun|].
    exact (Hrecord 404 Examples.wrong_ip eq_refl eq_refl).
Defined.

(** C3, as stated, fails: the provider answers the address [unknown] with
    status 404 and a JSON body describing the error.  That is a failed lookup
    by its status, yet the lookup returns a record (of nine [undefined]s) and
    a row is written. *)
Lemma error_status_with_json_body_is_recorded :
  let env := Examples.env_404 in
  let w' := snd (middleware env Examples.poem_unknown Examples.w0) in
  lookup_failed (provider env Examples.w0 (lookup_url env "unknown")) = true /\
  fst (getIpInfoFromIp env (Some "unknown") Examples.w0) <> Ok None /\
  fst (middleware env Examples.poem_unknown Examples.w0) = Ok NextResponse_next /\
  storage_writes (trace w') =
    [("ip_info",
      [ {| id := "00000000-0000-4000-8000-0";
           ip := JUndefined; hostname := JUndefined; city := JUndefined;
           region := JUndefined; country := JUndefined; loc := JUndefined;
           org := JUndefined; postal := JUndefined; timezone := JUndefined |} ])] /\
  size (ip_info w') = 1%nat.
Proof.
  cbv zeta. split; [reflexivity|]. split; [by vm_compute|].
  split; [by vm_compute|]. split; [by vm_compute|]. by vm_compute.
Qed.

(** C8.  When the database rejects the write of a qualifying request, the
    error is logged and nothing else happens: the write was attempted once
    and is not repeated, the table is unchanged, and the request gets its
    normal response. *)
Theorem failed_write_is_only_logged
    (env : Env) (request : NextRequest) (V : string) (w : World)
    (status : Z) (data : JSValue) (e : PostgrestError) :
  pathname request ∈ ["/"; "/poem"; "/monitoring"] ->
  headers request !! "x-forwarded-for" = Some V ->
  V <> "" ->
  provider env w (lookup_url env V) = Responds status (Json data) ->
  nullish data = false ->
  store_verdict env (drew_uuid (log (EvFetch (lookup_url env V)) w))
    [row_of (randomUUID env (uuids_drawn w)) (fields_of data)] = Some e ->
  exists w',
    middleware env request w = (Ok NextResponse_next, w') /\
    storage_writes (trace w') =
      storage_writes (trace w) ++
        [("ip_info", [row_of (randomUUID env (uuids_drawn w)) (fields_of data)])] /\
    console_errors (trace w') =
      console_errors (trace w) ++ [("Error saving IP info to Supabase:", LogDb e)] /\
    provider_calls (trace w') = provider_calls (trace w) ++ [lookup_url env V] /\
    ip_info w' = ip_info w.
Proof.
  intros Hpath Hhdr HV Hp Hn Hv.
  rewrite (middleware_json env request V w status data Hpath Hhdr HV Hp Hn).
  cbv zeta. rewrite Hv. eexists. split; [reflexivity|]. simpl.
  rewrite !storage_writes_app, !console_errors_app, !provider_calls_app. simpl.
  by rewrite !app_nil_r.
Qed.

Lemma failed_write_is_only_logged_witness :
  let env := Examples.env_db_down in
  ("/monitoring" ∈ ["/"; "/poem"; "/monitoring"]) /\
  exists w',
    middleware env Examples.monitoring_8888 Examples.w0 = (Ok NextResponse_next, w') /\
    storage_writes (trace w') =
      storage_writes (trace Examples.w0) ++
        [("ip_info",
          [row_of (randomUUID env (uuids_drawn Examples.w0))
             (fields_of Examples.mountain_view)])] /\
    console_errors (trace w') =
      console_errors (trace Examples.w0) ++
        [("Error saving IP info to Supabase:", LogDb "permission denied for table ip_info")] /\
    provider_calls (trace w') =
      provider_calls (trace Examples.w0) ++ [lookup_url env "8.8.8.8"] /\
    ip_info w' = ip_info Examples.w0.
Proof.
  assert ("/monitoring" ∈ ["/"; "/poem"; "/monitoring"]) as Hpath
    by (apply includes_elem_of; reflexivity).
  cbv zeta. split; [exact Hpath|].
  apply (failed_write_is_only_logged Examples.env_db_down Examples.monitoring_8888
           "8.8.8.8" Examples.w0 200 Examples.mountain_view
           "permission denied for table ip_info" Hpath).
  - reflexivity.
  - discriminate.
  - reflexivity.
  - reflexivity.
  - reflexivity.
Defined.

(** C4.  When the provider answers a qualifying request with a payload that
    has all nine fields, the request makes exactly one write, of exactly one
    row, to [ip_info]: its [id] is the identifier [crypto.randomUUID] yields
    for this call and its nine fields are the payload's, value for value; the
    request gets its normal response.  Where the database accepts the write,
    the identifier was not in the table, and the table is the old one plus
    that row. *)
Theorem full_payload_is_recorded
    (env : Env) (request : NextRequest) (V : string) (w : World)
    (status : Z) (props : gmap string JSValue)
    (v_ip v_hostname v_city v_region v_country v_loc v_org v_postal v_timezone : JSValue) :
  pathname request ∈ ["/"; "/poem"; "/monitoring"] ->
  headers request !! "x-forwarded-for" = Some V ->
  V <> "" ->
  provider env w (lookup_url env V) = Responds status (Json (JObject props)) ->
  props !! "ip" = Some v_ip ->
  props !! "hostname" = Some v_hostname ->
  props !! "city" = Some v_city ->
  props !! "region" = Some v_region ->
  props !! "country" = Some v_country ->
  props !! "loc" = Some v_loc ->
  props !! "org" = Some v_org ->
  props !! "postal" = Some v_postal ->
  props !! "timezone" = Some v_timezone ->
  let r := {| id := randomUUID env (uuids_drawn w);
              ip := v_ip; hostname := v_hostname; city := v_city; region := v_region;
              country := v_country; loc := v_loc; org := v_org; postal := v_postal;
              timezone := v_timezone |} in
  exists w',
    middleware env request w = (Ok NextResponse_next, w') /\
    storage_writes (trace w') = storage_writes (trace w) ++ [("ip_info", [r])] /\
    uuids_drawn w' = S (uuids_drawn w) /\
    (store_verdict env (drew_uuid (log (EvFetch (lookup_url env V)) w)) [r] = None ->
     collision_free env -> ids_drawn env w ->
     ip_info w !! id r = None /\
     ip_info w' = <[ id r := r ]> (ip_info w) /\
     size (ip_info w') = S (size (ip_info w))).
Proof.
  intros Hpath Hhdr HV Hp H1 H2 H3 H4 H5 H6 H7 H8 H9 r.
  rewrite (middleware_json env request V w status (JObject props) Hpath Hhdr HV Hp eq_refl).
  cbv zeta.
  assert (row_of (randomUUID env (uuids_drawn w)) (fields_of (JObject props)) = r) as ->.
  { unfold row_of, fields_of, read, r. simpl.
    by rewrite H1, H2, H3, H4, H5, H6, H7, H8, H9. }
  eexists. split; [reflexivity|]. split; [|split].
  - destruct (store_verdict env _ [r]); simpl;
      rewrite !storage_writes_app; simpl; by rewrite ?app_nil_r.
  - by destruct (store_verdict env _ [r]).
  - intros Hv Hinj Hw. rewrite Hv. simpl.
    pose proof (next_uuid_fresh env w Hinj Hw) as Hfresh.
    split; [done|]. split; [done|]. by apply map_size_insert_None.
Qed.

Lemma uuid_of_nat_collision_free (answer : FetchOutcome) (verdict : option PostgrestError) :
  collision_free (Examples.env_with answer verdict).
Proof.
  intros m n Heq. simpl in Heq. unfold Examples.uuid_of_nat in Heq.
  apply (inj (String.app _)) in Heq. by apply (inj pretty) in Heq.
Qed.

Lemma ids_drawn_empty (env : Env) : ids_drawn env Examples.w0.
Proof. intros k r Hk. simpl in Hk. by rewrite lookup_empty in Hk. Qed.

Lemma full_payload_is_recorded_witness :
  ("/monitoring" ∈ ["/"; "/poem"; "/monitoring"]) /\
  exists w',
    middleware Examples.env_ok Examples.monitoring_8888 Examples.w0 =
      (Ok NextResponse_next, w') /\
    storage_writes (trace w') = [("ip_info", [Examples.mountain_view_row])] /\
    uuids_drawn w' = 1%nat /\
    ip_info w' = {[ "00000000-0000-4000-8000-0" := Examples.mountain_view_row ]} /\
    size (ip_info w') = 1%nat.
Proof.
  assert ("/monitoring" ∈ ["/"; "/poem"; "/monitoring"]) as Hpath
    by (apply includes_elem_of; reflexivity).
  split; [exact Hpath|].
  destruct (full_payload_is_recorded Examples.env_ok Examples.monitoring_8888 "8.8.8.8"
              Examples.w0 200 Examples.mountain_view_props
              (JString "8.8.8.8") (JString "dns.google") (JString "Mountain View")
              (JString "California") (JString "US") (JString "37.4056,-122.0775")
              (JString "AS15169 Google LLC") (JString "94043")
              (JString "America/Los_Angeles")
              Hpath eq_refl ltac:(discriminate) eq_refl
              eq_refl eq_refl eq_refl eq_refl eq_refl eq_refl eq_refl eq_refl eq_refl)
    as (w' & Hrun & Hwrites & Hdrawn & Htable).
  destruct (Htable eq_refl (uuid_of_nat_collision_free _ _) (ids_drawn_empty _))
    as (_ & Hinsert & Hsize).
  exists w'. split; [exact Hrun|]. split; [exact Hwrites|]. split; [exact Hdrawn|].
  split; [exact Hinsert | exact Hsize].
Defined.

(** C7, as the code has it.  A request either writes nothing (and leaves the
    table alone), or makes exactly one write of exactly one row, and only
    after a lookup whose body parsed to a value other than [null].  The row
    carries the generated identifier and, for each of the nine fields, what
    the payload has under that name: a field the payload lacks is
    [undefined] in the row. *)
Theorem writes_are_one_row_or_nothing (env : Env) (request : NextRequest) (w : World) :
  let w' := snd (middleware env request w) in
  (storage_writes (trace w') = storage_writes (trace w) /\ ip_info w' = ip_info w) \/
  (exists (V : string) (status : Z) (data : JSValue) (r : Row),
     headers request !! "x-forwarded-for" = Some V /\
     provider env w (lookup_url env V) = Responds status (Json data) /\
     nullish data = false /\
     storage_writes (trace w') = storage_writes (trace w) ++ [("ip_info", [r])] /\
     id r = randomUUID env (uuids_drawn w) /\
     ip r = read data "ip" /\ hostname r = read data "hostname" /\
     city r = read data "city" /\ region r = read data "region" /\
     country r = read data "country" /\ loc r = read data "loc" /\
     org r = read data "org" /\ postal r = read data "postal" /\
     timezone r = read data "timezone").
Proof.
  cbv zeta.
  destruct (includes ["/"; "/poem"; "/monitoring"] (pathname request)) eqn:Hpath.
  - apply includes_elem_of in Hpath.
    destruct (headers request !! "x-forwarded-for") as [V|] eqn:Hhdr.
    + destruct (decide (V = "")) as [->|HV].
      * left. rewrite (middleware_no_ip env request w Hpath); [done|]. by rewrite Hhdr.
      * destruct (middleware_records env request V w Hpath Hhdr HV) as (w' & -> & Hrec).
        simpl. destruct (Recorded_storage_writes env V w w' Hrec)
          as [Hsame|(status & data & Hp & Hn & Hw)].
        -- destruct Hrec as [e He|status data Hp Hn w1 r Hv|status data e Hp Hn w1 r Hv].
           ++ by left.
           ++ exfalso. simpl in Hsame. rewrite !storage_writes_app in Hsame. simpl in Hsame.
              rewrite app_nil_r in Hsame.
              apply (f_equal length) in Hsame. rewrite length_app in Hsame.
              simpl in Hsame. lia.
           ++ by left.
        -- right. exists V, status, data,
             (row_of (randomUUID env (uuids_drawn w)) (fields_of data)).
           by repeat split.
    + left. rewrite (middleware_no_ip env request w Hpath); [done|]. by rewrite Hhdr.
  - apply includes_not_elem_of in Hpath. left.
    by rewrite (middleware_forbidden env request w Hpath).
Qed.

(** C7, as stated, fails: for a private address the provider answers with
    [ip] and [bogon] only, and the row written has eight fields missing. *)
Lemma bogon_row_is_partial :
  let w' := snd (middleware Examples.env_bogon Examples.home_private Examples.w0) in
  let r := {| id := "00000000-0000-4000-8000-0";
              ip := JString "192.168.0.1"; hostname := JUndefined; city := JUndefined;
              region := JUndefined; country := JUndefined; loc := JUndefined;
              org := JUndefined; postal := JUndefined; timezone := JUndefined |} in
  storage_writes (trace w') = [("ip_info", [r])] /\
  ip_info w' !! "00000000-0000-4000-8000-0" = Some r /\
  fully_formed r = false.
Proof. cbv zeta. split; [by vm_compute|]. split; by vm_compute. Qed.

(** C6.  Two identical qualifying requests, both with a successful lookup,
    hand two rows with different identifiers to the database: the identifier
    is the next one of [crypto.randomUUID], whatever the address.  Where the
    database accepts both writes, both rows are in the table side by side,
    which has grown by two: nothing is deduplicated.  This takes a generator
    that never repeats itself and a table that holds only rows written this
    way. *)
Theorem same_request_twice_two_rows
    (env : Env) (request : NextRequest) (V : string) (w : World)
    (status1 status2 : Z) (data1 data2 : JSValue) :
  let url := lookup_url env V in
  let w1 := snd (middleware env request w) in
  let w2 := snd (middleware env request w1) in
  let r1 := row_of (randomUUID env (uuids_drawn w)) (fields_of data1) in
  let r2 := row_of (randomUUID env (S (uuids_drawn w))) (fields_of data2) in
  pathname request ∈ ["/"; "/poem"; "/monitoring"] ->
  headers request !! "x-forwarded-for" = Some V ->
  V <> "" ->
  collision_free env ->
  provider env w url = Responds status1 (Json data1) -> nullish data1 = false ->
  provider env w1 url = Responds status2 (Json data2) -> nullish data2 = false ->
  id r1 <> id r2 /\
  storage_writes (trace w2) =
    storage_writes (trace w) ++ [("ip_info", [r1]); ("ip_info", [r2])] /\
  (data1 = data2 -> ip r1 = ip r2) /\
  (store_verdict env (drew_uuid (log (EvFetch url) w)) [r1] = None ->
   store_verdict env (drew_uuid (log (EvFetch url) w1)) [r2] = None ->
   ids_drawn env w ->
   ip_info w2 = <[ id r2 := r2 ]> (<[ id r1 := r1 ]> (ip_info w)) /\
   ip_info w !! id r1 = None /\ ip_info w !! id r2 = None /\
   ip_info w2 !! id r1 = Some r1 /\ ip_info w2 !! id r2 = Some r2 /\
   size (ip_info w2) = S (S (size (ip_info w)))).
Proof.
  intros url w1 w2 r1 r2 Hpath Hhdr HV Hinj Hp1 Hn1 Hp2 Hn2.
  assert (id r1 <> id r2) as Hne.
  { simpl. intros Heq. apply Hinj in Heq. lia. }
  pose proof (middleware_json env request V w status1 data1 Hpath Hhdr HV Hp1 Hn1) as Hrun1.
  cbv zeta in Hrun1. fold url r1 in Hrun1.
  assert (uuids_drawn w1 = S (uuids_drawn w)) as Hdrawn.
  { unfold w1. rewrite Hrun1. simpl. by destruct (store_verdict env _ [r1]). }
  assert (storage_writes (trace w1) = storage_writes (trace w) ++ [("ip_info", [r1])])
    as Hwrites1.
  { unfold w1. rewrite Hrun1. simpl.
    destruct (store_verdict env _ [r1]); simpl;
      rewrite !storage_writes_app; simpl; by rewrite ?app_nil_r. }
  pose proof (middleware_json env request V w1 status2 data2 Hpath Hhdr HV Hp2 Hn2) as Hrun2.
  cbv zeta in Hrun2. rewrite Hdrawn in Hrun2. fold url r2 in Hrun2.
  split; [done|]. split; [|split].
  - unfold w2. rewrite Hrun2. simpl.
    destruct (store_verdict env _ [r2]); simpl;
      rewrite !storage_writes_app, Hwrites1; simpl;
      rewrite ?app_nil_r, <- app_assoc; done.
  - by intros ->.
  - intros Hv1 Hv2 Hw.
    assert (ip_info w1 = <[ id r1 := r1 ]> (ip_info w)) as Htable1.
    { unfold w1. rewrite Hrun1, Hv1. done. }
    assert (ip_info w2 = <[ id r2 := r2 ]> (ip_info w1)) as Htable2.
    { unfold w2. rewrite Hrun2, Hv2. done. }
    assert (ip_info w !! id r1 = None) as Hfresh1 by exact (next_uuid_fresh env w Hinj Hw).
    assert (ip_info w !! id r2 = None) as Hfresh2.
    { destruct (ip_info w !! id r2) as [r|] eqn:Hk; [|done].
      destruct (Hw _ _ Hk) as (_ & n & Hlt & Hu). simpl in Hu. apply Hinj in Hu. lia. }
    rewrite Htable2, Htable1. split; [done|]. split; [done|]. split; [done|].
    split; [|split].
    + rewrite lookup_insert_ne by done. apply lookup_insert_eq.
    + apply lookup_insert_eq.
    + rewrite map_size_insert_None.
      * by rewrite map_size_insert_None.
      * by rewrite lookup_insert_ne.
Qed.

Lemma same_request_twice_two_rows_witness :
  let env := Examples.env_ok in
  let w2 := snd (middleware env Examples.monitoring_8888
                   (snd (middleware env Examples.monitoring_8888 Examples.w0))) in
  let r1 := row_of "00000000-0000-4000-8000-0" (fields_of Examples.mountain_view) in
  let r2 := row_of "00000000-0000-4000-8000-1" (fields_of Examples.mountain_view) in
  ("/monitoring" ∈ ["/"; "/poem"; "/monitoring"]) /\
  collision_free env /\
  id r1 <> id r2 /\
  storage_writes (trace w2) = [("ip_info", [r1]); ("ip_info", [r2])] /\
  ip r1 = ip r2 /\
  ip_info w2 !! "00000000-0000-4000-8000-0" = Some r1 /\
  ip_info w2 !! "00000000-0000-4000-8000-1" = Some r2 /\
  size (ip_info w2) = 2%nat.
Proof.
  assert ("/monitoring" ∈ ["/"; "/poem"; "/monitoring"]) as Hpath
    by (apply includes_elem_of; reflexivity).
  cbv zeta. split; [exact Hpath|].
  split; [exact (uuid_of_nat_collision_free _ _)|].
  destruct (same_request_twice_two_rows Examples.env_ok Examples.monitoring_8888
              "8.8.8.8" Examples.w0 200 200 Examples.mountain_view Examples.mountain_view
              Hpath eq_refl ltac:(discriminate) (uuid_of_nat_collision_free _ _)
              eq_refl eq_refl eq_refl eq_refl)
    as (Hne & Hwrites & Hip & Htable).
  destruct (Htable eq_refl eq_refl (ids_drawn_empty _))
    as (_ & _ & _ & Hrow1 & Hrow2 & Hsize).
  split; [exact Hne|]. split; [exact Hwrites|]. split; [exact (Hip eq_refl)|].
  split; [exact Hrow1|]. split; [exact Hrow2 | exact Hsize].
Defined.

(** * The map page *)

Section PageFacts.

Context {num : Type} (Number : string -> num) (isNaN : num -> bool).

Lemma truthy_has_loc (item : Page.Item) :
  Is_true (Page.truthy (Page.loc item)) <-> Page.has_loc item.
Proof.
  unfold Page.truthy, Page.has_loc. rewrite negb_True, Is_true_true, js_not_true.
  split.
  - intros Hno. split; intros Heq; apply Hno; [by left | by right].
  - intros [Hsome Hne] [Heq|Heq]; [by apply Hsome | by apply Hne].
Qed.

Lemma place_marker_marker_of (lmap : Page.LeafletMap num) (item : Page.Item) :
  Page.place_marker num Number isNaN lmap item =
  (fun m => Page.addTo num m lmap) <$> Page.marker_of num Number isNaN item.
Proof.
  unfold Page.place_marker, Page.marker_of.
  destruct (Page.loc item) as [s|]; [|done].
  rewrite <- !list_lookup_fmap.
  by destruct (Page.toLatLng num isNaN _ _).
Qed.

(** The loop adds the markers of the rows, in their order, after those
    already on the map, and throws as soon as one row has none. *)
Lemma forEach_markers (items : list Page.Item) (lmap : Page.LeafletMap num) :
  Page.forEach num Number isNaN items lmap =
  (fun ms => {| Page.view := Page.view num lmap; Page.tiles := Page.tiles num lmap;
                Page.markers := Page.markers num lmap ++ ms |})
    <$> mapM (Page.marker_of num Number isNaN) items.
Proof.
  revert lmap. induction items as [|item items IH]; intros lmap; simpl.
  - rewrite app_nil_r. by destruct lmap.
  - rewrite place_marker_marker_of.
    destruct (Page.marker_of num Number isNaN item) as [m|]; simpl; [|done].
    rewrite IH. simpl.
    destruct (mapM (Page.marker_of num Number isNaN) items) as [ms|]; simpl; [|done].
    by rewrite <- app_assoc.
Qed.

(** The page after [select] returned rows: it throws when a row with a [loc]
    has no marker; otherwise it keeps the rows with a [loc] and, if there are
    any, builds the map with their markers. *)
Lemma MapPage_run (data : list Page.Item) :
  Page.MapPage num Number isNaN (Page.SelectData data) =
  (fun ms =>
     {| Page.locations := filter Page.has_loc data;
        Page.map :=
          match filter Page.has_loc data with
          | [] => None
          | _ :: _ =>
              Some {| Page.view := ((0, 0), 2);
                      Page.tiles := ["https://{s}.tile.openstreetmap.org/{z}/{x}/{y}.png"];
                      Page.markers := ms |}
          end;
        Page.console := [] |})
    <$> mapM (Page.marker_of num Number isNaN) (filter Page.has_loc data).
Proof.
  unfold Page.MapPage. simpl. unfold Page.map_effect. simpl.
  rewrite (list_filter_iff _ _ data truthy_has_loc).
  destruct (filter Page.has_loc data) as [|item items] eqn:Hfilter; [done|].
  cbn [length Nat.ltb Nat.leb andb Page.window_defined].
  rewrite forEach_markers.
  by destruct (mapM (Page.marker_of num Number isNaN) (item :: items)).
Qed.

Lemma rendered_MapPage (data : list Page.Item) :
  Page.rendered <$> Page.MapPage num Number isNaN (Page.SelectData data) =
  mapM (Page.marker_of num Number isNaN) (filter Page.has_loc data).
Proof.
  rewrite MapPage_run.
  destruct (filter Page.has_loc data) as [|item items]; [done|].
  by destruct (mapM (Page.marker_of num Number isNaN) (item :: items)).
Qed.

(** A failed [select] leaves the page without a map. *)
Lemma rendered_MapPage_error (e : PostgrestError) :
  Page.rendered <$> Page.MapPage num Number isNaN (Page.SelectError e) = Some [].
Proof. reflexivity. Qed.

(** A row that can be plotted gets its marker at [Number] of the first two
    pieces of its [loc]. *)
Lemma marker_of_plottable (item : Page.Item) :
  Page.plottable num Number isNaN item = true ->
  exists (s lat lng : string) (rest : list string),
    Page.loc item = Some s /\
    Page.split_comma s = lat :: lng :: rest /\
    Page.marker_of num Number isNaN item =
      Some {| Page.latlng := (Number lat, Number lng);
              Page.icon := Page.customIcon;
              Page.popup :=
                "<h3>" +:+ interpolate_nullable (Page.city item) +:+ ", "
                  +:+ interpolate_nullable (Page.country item) +:+ "</h3><p>"
                  +:+ interpolate_nullable (Page.hostname item) +:+ "</p>" |}.
Proof.
  unfold Page.plottable, Page.numeric, Page.marker_of.
  destruct (Page.loc item) as [s|]; [|done].
  destruct (Page.split_comma s) as [|lat [|lng rest]] eqn:Hsplit; [done..|].
  intros Hnum. apply andb_true_iff in Hnum as [Hlat Hlng].
  apply negb_true_iff in Hlat, Hlng.
  exists s, lat, lng, rest. split; [done|]. split; [done|].
  simpl. by rewrite Hlat, Hlng.
Qed.

(** A row that cannot be plotted gets none. *)
Lemma marker_of_unplottable (item : Page.Item) :
  Page.plottable num Number isNaN item = false ->
  Page.marker_of num Number isNaN item = None.
Proof.
  unfold Page.plottable, Page.numeric, Page.marker_of.
  destruct (Page.loc item) as [s|]; [|done].
  destruct (Page.split_comma s) as [|lat [|lng rest]]; [done..|].
  intros Hnum. simpl.
  destruct (isNaN (Number lat)), (isNaN (Number lng)); done.
Qed.

(** When every row with a [loc] can be plotted the page does not throw, and
    its markers are, one for one, those of these rows. *)
Lemma MapPage_plottable (data : list Page.Item) :
  (forall item, item ∈ data -> Page.has_loc item ->
     Page.plottable num Number isNaN item = true) ->
  exists st : Page.PageState num,
    Page.MapPage num Number isNaN (Page.SelectData data) = Some st /\
    Page.locations st = filter Page.has_loc data /\
    Page.console st = [] /\
    (filter Page.has_loc data = [] -> Page.map st = None) /\
    (filter Page.has_loc data <> [] ->
     Page.map st =
       Some {| Page.view := ((0, 0), 2);
               Page.tiles := ["https://{s}.tile.openstreetmap.org/{z}/{x}/{y}.png"];
               Page.markers := Page.rendered st |}) /\
    Forall2 (fun item m => Page.marker_of num Number isNaN item = Some m)
      (filter Page.has_loc data) (Page.rendered st).
Proof.
  intros Hall. rewrite MapPage_run.
  destruct (mapM (Page.marker_of num Number isNaN) (filter Page.has_loc data))
    as [ms|] eqn:Hms.
  - apply mapM_Some_1 in Hms. eexists. split; [reflexivity|]. simpl.
    split; [done|]. split; [done|].
    destruct (filter Page.has_loc data) as [|item items].
    + apply Forall2_nil_inv_l in Hms as ->. by repeat split.
    + split; [done|]. split; [done|]. done.
  - exfalso. apply mapM_None_1, Exists_exists in Hms as (item & Hin & Hnone).
    apply list_elem_of_filter in Hin as [Hloc Hin].
    destruct (marker_of_plottable item (Hall item Hin Hloc)) as (? & ? & ? & ? & _ & _ & Hm).
    congruence.
Qed.

(** One row with a [loc] that cannot be plotted, and the page throws. *)
Lemma MapPage_unplottable (data : list Page.Item) (item : Page.Item) :
  item ∈ data -> Page.has_loc item ->
  Page.plottable num Number isNaN item = false ->
  Page.MapPage num Number isNaN (Page.SelectData data) = None.
Proof.
  intros Hin Hloc Hbad. rewrite MapPage_run.
  assert (mapM (Page.marker_of num Number isNaN) (filter Page.has_loc data) = None) as ->;
    [|done].
  apply mapM_None_2, Exists_exists. exists item.
  split; [by apply list_elem_of_filter | by apply marker_of_unplottable].
Qed.

End PageFacts.

(** *** Splitting on the comma *)

Lemma split_pieces_comma_free (s : string) :
  Page.comma_free s -> Page.split_pieces s = (s, []).
Proof.
  unfold Page.comma_free. induction s as [|c s IH]; intros Hfree; simpl; [done|].
  simpl in Hfree. apply not_elem_of_cons in Hfree as [Hc Hs].
  rewrite (IH Hs). destruct (Ascii.eqb_spec c ","); [congruence | done].
Qed.

Lemma append_empty_l (s : string) : "" +:+ s = s.
Proof. reflexivity. Qed.

Lemma append_String (c : ascii) (a s : string) : String c a +:+ s = String c (a +:+ s).
Proof. reflexivity. Qed.

Lemma append_empty_r (s : string) : s +:+ "" = s.
Proof. induction s as [|c s IH]; [done|]. by rewrite append_String, IH. Qed.

Lemma split_pieces_prefix (a s : string) :
  Page.comma_free a ->
  Page.split_pieces (a +:+ s) =
    (a +:+ fst (Page.split_pieces s), snd (Page.split_pieces s)).
Proof.
  unfold Page.comma_free. induction a as [|c a IH]; intros Hfree.
  - rewrite !append_empty_l. by destruct (Page.split_pieces s).
  - simpl in Hfree. apply not_elem_of_cons in Hfree as [Hc Ha].
    rewrite !append_String. simpl. rewrite (IH Ha).
    destruct (Ascii.eqb_spec c ","); [congruence | done].
Qed.

(** A string of two comma-free parts around one comma splits into them. *)
Lemma split_comma_pair (lat lng : string) :
  Page.comma_free lat -> Page.comma_free lng ->
  Page.split_comma (lat +:+ "," +:+ lng) = [lat; lng].
Proof.
  intros Hlat Hlng. unfold Page.split_comma.
  rewrite (split_pieces_prefix lat _ Hlat), append_String, append_empty_l. simpl.
  rewrite (split_pieces_comma_free lng Hlng). simpl.
  by rewrite append_empty_r.
Qed.

(** [split] yields one piece more than there are commas. *)
Lemma split_comma_length (s : string) :
  length (Page.split_comma s) =
  S (length (filter (fun c => c = ("," : ascii)) (Page.chars s))).
Proof.
  unfold Page.split_comma.
  assert (length (snd (Page.split_pieces s)) =
          length (filter (fun c => c = ("," : ascii)) (Page.chars s))) as Hlen.
  { induction s as [|c s IH]; simpl; [done|].
    destruct (Page.split_pieces s) as [piece pieces]. simpl in IH.
    destruct (Ascii.eqb_spec c ",") as [->|Hc].
    - rewrite filter_cons_True by done. simpl. by rewrite IH.
    - by rewrite filter_cons_False. }
  destruct (Page.split_pieces s) as [piece pieces]. simpl in *. by rewrite Hlen.
Qed.

(** C9, as the code has it.  Once [select] has returned its rows, and when
    every row with a non-empty [loc] has a [loc] whose first two pieces
    between commas convert to numbers, the page shows exactly one marker per
    row whose [loc] is a non-empty string, in the order of the rows, and no
    marker for any other row.  The position of a marker is [loc] split at the
    commas, its first two pieces each converted with [Number]; for a [loc] of
    two comma-free parts around one comma these are the two parts. *)
Theorem one_marker_per_row_with_numeric_loc
    {num : Type} (Number : string -> num) (isNaN : num -> bool) (data : list Page.Item) :
  (forall item, item ∈ data -> Page.has_loc item ->
     Page.plottable num Number isNaN item = true) ->
  exists st : Page.PageState num,
    Page.MapPage num Number isNaN (Page.SelectData data) = Some st /\
    let shown := Page.rendered st in
    let located := filter Page.has_loc data in
    length shown = length located /\
    (forall (i : nat) (item : Page.Item),
       located !! i = Some item ->
       exists (s lat lng : string) (rest : list string) (m : Page.Marker num),
         Page.loc item = Some s /\ s <> "" /\
         Page.split_comma s = lat :: lng :: rest /\
         shown !! i = Some m /\
         Page.latlng m = (Number lat, Number lng)) /\
    (forall (i : nat) (item : Page.Item) (lat lng : string),
       located !! i = Some item ->
       Page.loc item = Some (lat +:+ "," +:+ lng) ->
       Page.comma_free lat -> Page.comma_free lng ->
       exists m : Page.Marker num,
         shown !! i = Some m /\ Page.latlng m = (Number lat, Number lng)) /\
    (forall (i : nat) (m : Page.Marker num),
       shown !! i = Some m ->
       exists item : Page.Item,
         located !! i = Some item /\ item ∈ data /\
         Page.loc item <> None /\ Page.loc item <> Some "").
Proof.
  intros Hall.
  destruct (MapPage_plottable Number isNaN data Hall)
    as (st & Hrun & _ & _ & _ & _ & Hshown).
  exists st. split; [exact Hrun|]. cbv zeta.
  assert (forall (i : nat) (item : Page.Item),
            filter Page.has_loc data !! i = Some item ->
            exists (s lat lng : string) (rest : list string) (m : Page.Marker num),
              Page.loc item = Some s /\ s <> "" /\
              Page.split_comma s = lat :: lng :: rest /\
              Page.rendered st !! i = Some m /\
              Page.latlng m = (Number lat, Number lng)) as Hmarkers.
  { intros i item Hi.
    destruct (Forall2_lookup_l _ _ _ i item Hshown Hi) as (m & Hm & Hof).
    pose proof (list_elem_of_lookup_2 _ _ _ Hi) as Hin.
    apply list_elem_of_filter in Hin as [[Hsome Hne] Hin].
    destruct (marker_of_plottable Number isNaN item (Hall item Hin (conj Hsome Hne)))
      as (s & lat & lng & rest & Hloc & Hsplit & Hof').
    exists s, lat, lng, rest, m. split; [done|]. split; [congruence|].
    split; [done|]. split; [done|].
    rewrite Hof in Hof'. by injection Hof' as ->. }
  split; [symmetry; by eapply Forall2_length|]. split; [exact Hmarkers|]. split.
  - intros i item lat lng Hi Hloc Hlat Hlng.
    destruct (Hmarkers i item Hi)
      as (s & lat' & lng' & rest & m & Hloc' & _ & Hsplit & Hm & Hpos).
    exists m. split; [done|].
    rewrite Hloc in Hloc'. injection Hloc' as <-.
    rewrite (split_comma_pair lat lng Hlat Hlng) in Hsplit.
    by injection Hsplit as <- <- _.
  - intros i m Hi.
    destruct (Forall2_lookup_r _ _ _ i m Hshown Hi) as (item & Hitem & _).
    exists item. split; [done|].
    apply list_elem_of_lookup_2 in Hitem.
    by apply list_elem_of_filter in Hitem as [[? ?] ?].
Qed.

(** Each row of the example that has a [loc] can be plotted. *)
Lemma rows_plottable (item : Page.Item) :
  item ∈ Examples.rows -> Page.has_loc item ->
  Page.plottable Examples.Decimal Examples.Number_decimal Examples.isNaN_decimal item = true.
Proof.
  unfold Examples.rows. rewrite !elem_of_cons, elem_of_nil.
  intros [->|[->|[->|[->|[]]]]] [Hsome Hne]; try reflexivity.
  - by destruct Hsome.
  - by destruct Hne.
Qed.

Lemma one_marker_per_row_with_numeric_loc_witness :
  length Examples.rows = 4%nat /\
  exists st : Page.PageState Examples.Decimal,
    Page.MapPage Examples.Decimal Examples.Number_decimal Examples.isNaN_decimal
      (Page.SelectData Examples.rows) = Some st /\
    length (Page.rendered st) = 2%nat /\
    exists m : Page.Marker Examples.Decimal,
      Page.rendered st !! 1%nat = Some m /\
      Page.latlng m = (Examples.Written "-23.5475", Examples.Written "-46.6361").
Proof.
  destruct (one_marker_per_row_with_numeric_loc Examples.Number_decimal
              Examples.isNaN_decimal Examples.rows rows_plottable)
    as (st & Hrun & Hlen & _ & Hpair & _).
  split; [reflexivity|]. exists st. split; [exact Hrun|]. split; [exact Hlen|].
  apply (Hpair 1%nat
           {| Page.loc := Some "-23.5475,-46.6361"; Page.city := Some "Sao Paulo";
              Page.country := Some "BR"; Page.hostname := None |}
           "-23.5475" "-46.6361").
  - reflexivity.
  - reflexivity.
  - unfold Page.comma_free. refine (bool_decide_unpack _ _). vm_compute. exact I.
  - unfold Page.comma_free. refine (bool_decide_unpack _ _). vm_compute. exact I.
Defined.

(** C9, as stated, fails: of two rows with a non-empty [loc], the first has
    [abc,def].  [Number] of [abc] is NaN, Leaflet refuses the position, the
    loop ends in a throw, and the page has no state with a marker per row. *)
Lemma malformed_loc_breaks_the_page :
  length (filter Page.has_loc Examples.bad_rows) = 2%nat /\
  Page.split_comma "abc,def" = ["abc"; "def"] /\
  Examples.isNaN_decimal (Examples.Number_decimal "abc") = true /\
  Page.MapPage Examples.Decimal Examples.Number_decimal Examples.isNaN_decimal
    (Page.SelectData Examples.bad_rows) = None.
Proof. split; [reflexivity|]. split; [reflexivity|]. split; reflexivity. Qed.

(** * Further properties of the middleware *)

Lemma qualifies_true (request : NextRequest) :
  qualifies request = true <->
  pathname request ∈ ["/"; "/poem"; "/monitoring"] /\
  exists V, headers request !! "x-forwarded-for" = Some V /\ V <> "".
Proof.
  unfold qualifies, headers_get.
  rewrite andb_true_iff, negb_true_iff, includes_elem_of, js_not_false. done.
Qed.

Lemma middleware_qualified (env : Env) (request : NextRequest) (w : World) :
  qualifies request = true ->
  exists (V : string) (w' : World),
    forwarded_address request = Some V /\
    middleware env request w = (Ok NextResponse_next, w') /\
    Recorded env V w w'.
Proof.
  intros Hq. pose proof Hq as Hq'. apply qualifies_true in Hq' as (Hpath & V & Hhdr & HV).
  destruct (middleware_records env request V w Hpath Hhdr HV) as (w' & Hrun & Hrec).
  exists V, w'. unfold forwarded_address, headers_get. by rewrite Hq.
Qed.

Lemma middleware_unqualified (env : Env) (request : NextRequest) (w : World) :
  qualifies request = false ->
  exists r : NextResponse,
    middleware env request w = (Ok r, w) /\
    (status_of r = Some 403 \/ status_of r = Some 400) /\
    forwarded_address request = None.
Proof.
  intros Hq. unfold forwarded_address. rewrite Hq.
  unfold qualifies in Hq. apply andb_false_iff in Hq.
  destruct (includes ["/"; "/poem"; "/monitoring"] (pathname request)) eqn:Hpath.
  - destruct Hq as [?|Hip]; [done|]. apply negb_false_iff in Hip.
    apply includes_elem_of in Hpath.
    rewrite (middleware_no_ip env request w Hpath Hip). eexists. split; [done|]. by auto.
  - apply includes_not_elem_of in Hpath.
    rewrite (middleware_forbidden env request w Hpath). eexists. split; [done|]. by auto.
Qed.

(** What a recording run appends to the log: the fetch, then at most a write
    and at most a line on the console. *)
Lemma Recorded_trace (env : Env) (V : string) (w w' : World) :
  Recorded env V w w' ->
  exists rest : list Event,
    trace w' = trace w ++ EvFetch (lookup_url env V) :: rest /\
    provider_calls rest = [] /\
    (length rest <= 2)%nat /\
    (length (storage_writes rest) <= 1)%nat /\
    uuids_drawn w' = (uuids_drawn w + length (storage_writes rest))%nat.
Proof.
  destruct 1 as [e He|status data Hp Hn w1 r Hv|status data e Hp Hn w1 r Hv]; simpl.
  - exists [EvConsoleError "Error fetching IP info:" (LogExn e)].
    rewrite <- app_assoc. simpl. repeat split; auto with lia.
  - exists [EvUpsert "ip_info" [r]].
    rewrite <- app_assoc. simpl. repeat split; auto with lia.
  - exists [EvUpsert "ip_info" [r];
            EvConsoleError "Error saving IP info to Supabase:" (LogDb e)].
    rewrite <- !app_assoc. simpl. repeat split; auto with lia.
Qed.

(** What a recording run does to the table: nothing, or one insertion under
    the identifier just drawn. *)
Lemma Recorded_table (env : Env) (V : string) (w w' : World) :
  Recorded env V w w' ->
  ip_info w' = ip_info w \/
  exists r : Row,
    id r = randomUUID env (uuids_drawn w) /\ ip_info w' = <[ id r := r ]> (ip_info w).
Proof.
  destruct 1 as [e He|status data Hp Hn w1 r Hv|status data e Hp Hn w1 r Hv]; simpl.
  - by left.
  - right. by exists r.
  - by left.
Qed.

(** X1.  The middleware never throws, and its response is decided by the
    request alone: under any two providers, databases and histories the same
    request gets the same response, which is the 403, the 400 or the
    pass-through. *)
Theorem response_decided_by_request
    (env1 env2 : Env) (request : NextRequest) (w1 w2 : World) :
  exists (r : NextResponse) (w1' w2' : World),
    middleware env1 request w1 = (Ok r, w1') /\
    middleware env2 request w2 = (Ok r, w2') /\
    (r = NextResponse_next \/ status_of r = Some 403 \/ status_of r = Some 400).
Proof.
  destruct (qualifies request) eqn:Hq.
  - destruct (middleware_qualified env1 request w1 Hq) as (V1 & w1' & _ & -> & _).
    destruct (middleware_qualified env2 request w2 Hq) as (V2 & w2' & _ & -> & _).
    exists NextResponse_next, w1', w2'. auto.
  - destruct (includes ["/"; "/poem"; "/monitoring"] (pathname request)) eqn:Hpath.
    + apply includes_elem_of in Hpath.
      assert (js_not (headers request !! "x-forwarded-for") = true) as Hip.
      { unfold qualifies, headers_get in Hq.
        apply includes_elem_of in Hpath. rewrite Hpath in Hq. simpl in Hq.
        by apply negb_false_iff in Hq. }
      rewrite !(middleware_no_ip _ request _ Hpath Hip).
      eexists _, w1, w2. split; [done|]. split; [done|]. right. by right.
    + apply includes_not_elem_of in Hpath.
      rewrite !(middleware_forbidden _ request _ Hpath).
      eexists _, w1, w2. split; [done|]. split; [done|]. right. by left.
Qed.

(** X2.  A request either fails the gate and leaves the world exactly as it
    was, or passes it and appends to the log: first the one provider call for
    its forwarded address, then at most one write and at most two events in
    all; an identifier is drawn exactly when a write is made. *)
Theorem request_effects_are_bounded (env : Env) (request : NextRequest) (w : World) :
  let w' := snd (middleware env request w) in
  (qualifies request = false /\ w' = w) \/
  (qualifies request = true /\
   exists (V : string) (rest : list Event),
     forwarded_address request = Some V /\
     trace w' = trace w ++ EvFetch (lookup_url env V) :: rest /\
     provider_calls rest = [] /\
     (length rest <= 2)%nat /\
     (length (storage_writes rest) <= 1)%nat /\
     uuids_drawn w' = (uuids_drawn w + length (storage_writes rest))%nat).
Proof.
  cbv zeta. destruct (qualifies request) eqn:Hq.
  - right. split; [done|].
    destruct (middleware_qualified env request w Hq) as (V & w' & Hfwd & -> & Hrec).
    destruct (Recorded_trace env V w w' Hrec) as (rest & ? & ? & ? & ? & ?).
    by exists V, rest.
  - left. split; [done|].
    by destruct (middleware_unqualified env request w Hq) as (r & -> & _).
Qed.

(** X3.  A response whose body is the JSON value [null] counts as a failed
    lookup, whatever its status: reading [data.ip] throws, the [catch] logs
    the [TypeError] and returns [null], nothing is written and the request
    gets its normal response. *)
Theorem null_body_is_a_failed_lookup
    (env : Env) (request : NextRequest) (V : string) (w : World) (status : Z) :
  pathname request ∈ ["/"; "/poem"; "/monitoring"] ->
  headers request !! "x-forwarded-for" = Some V ->
  V <> "" ->
  provider env w (lookup_url env V) = Responds status (Json JNull) ->
  exists (reason : string) (w' : World),
    getIpInfoFromIp env (Some V) w = (Ok None, w') /\
    middleware env request w = (Ok NextResponse_next, w') /\
    trace w' =
      trace w ++ [EvFetch (lookup_url env V);
                  EvConsoleError "Error fetching IP info:" (LogExn (TypeError reason))] /\
    ip_info w' = ip_info w /\
    uuids_drawn w' = uuids_drawn w.
Proof.
  intros Hpath Hhdr HV Hp.
  rewrite (middleware_allowed env request V w Hpath Hhdr HV).
  destruct (lookup_nullish env V status JNull w Hp eq_refl) as [reason ->].
  rewrite save_nothing. exists reason. eexists.
  split; [reflexivity|]. split; [reflexivity|]. simpl.
  by rewrite <- app_assoc.
Qed.

Lemma null_body_is_a_failed_lookup_witness :
  exists (reason : string) (w' : World),
    getIpInfoFromIp Scenarios.env_null_body (Some "8.8.8.8") Examples.w0 = (Ok None, w') /\
    middleware Scenarios.env_null_body Examples.monitoring_8888 Examples.w0 =
      (Ok NextResponse_next, w') /\
    trace w' =
      trace Examples.w0 ++
        [EvFetch (lookup_url Scenarios.env_null_body "8.8.8.8");
         EvConsoleError "Error fetching IP info:" (LogExn (TypeError reason))] /\
    ip_info w' = ip_info Examples.w0 /\
    uuids_drawn w' = uuids_drawn Examples.w0.
Proof.
  apply (null_body_is_a_failed_lookup Scenarios.env_null_body Examples.monitoring_8888
           "8.8.8.8" Examples.w0 200).
  - apply includes_elem_of. reflexivity.
  - reflexivity.
  - discriminate.
  - reflexivity.
Defined.

(** X4.  A JSON body that is not an object and not [null] (a string, a
    number, a boolean or an array) passes for a successful lookup: every one
    of the nine fields reads as [undefined], and a row that holds nothing but
    a fresh identifier is handed to the database. *)
Theorem non_object_body_writes_blank_row
    (env : Env) (request : NextRequest) (V : string) (w : World)
    (status : Z) (data : JSValue) :
  pathname request ∈ ["/"; "/poem"; "/monitoring"] ->
  headers request !! "x-forwarded-for" = Some V ->
  V <> "" ->
  provider env w (lookup_url env V) = Responds status (Json data) ->
  nullish data = false ->
  is_object data = false ->
  exists w' : World,
    middleware env request w = (Ok NextResponse_next, w') /\
    storage_writes (trace w') =
      storage_writes (trace w) ++
        [("ip_info", [blank_row (randomUUID env (uuids_drawn w))])].
Proof.
  intros Hpath Hhdr HV Hp Hn Hobj.
  rewrite (middleware_json env request V w status data Hpath Hhdr HV Hp Hn). cbv zeta.
  assert (row_of (randomUUID env (uuids_drawn w)) (fields_of data) =
          blank_row (randomUUID env (uuids_drawn w))) as ->
    by (by destruct data).
  eexists. split; [reflexivity|].
  destruct (store_verdict env _ _); simpl;
    rewrite !storage_writes_app; simpl; by rewrite ?app_nil_r.
Qed.

Lemma non_object_body_writes_blank_row_witness :
  exists w' : World,
    middleware Scenarios.env_rate_limited Examples.monitoring_8888 Examples.w0 =
      (Ok NextResponse_next, w') /\
    storage_writes (trace w') =
      storage_writes (trace Examples.w0) ++
        [("ip_info", [blank_row "00000000-0000-4000-8000-0"])].
Proof.
  apply (non_object_body_writes_blank_row Scenarios.env_rate_limited
           Examples.monitoring_8888 "8.8.8.8" Examples.w0 429
           (JString "Rate limit exceeded")).
  - apply includes_elem_of. reflexivity.
  - reflexivity.
  - discriminate.
  - reflexivity.
  - reflexivity.
  - reflexivity.
Defined.

(** X5.  When [IP_KEY] is not set in the environment the lookup is made all
    the same, and the URL carries the text [undefined] as its token. *)
Theorem unset_token_is_sent_as_undefined
    (env : Env) (request : NextRequest) (V : string) (w : World) :
  IP_KEY env = None ->
  pathname request ∈ ["/"; "/poem"; "/monitoring"] ->
  headers request !! "x-forwarded-for" = Some V ->
  V <> "" ->
  provider_calls (trace (snd (middleware env request w))) =
    provider_calls (trace w) ++ ["https://ipinfo.io/" +:+ V +:+ "/json?token=undefined"].
Proof.
  intros Hkey Hpath Hhdr HV.
  destruct (middleware_records env request V w Hpath Hhdr HV) as (w' & -> & Hrec).
  simpl. rewrite (Recorded_provider_calls env V w w' Hrec).
  unfold lookup_url. by rewrite Hkey.
Qed.

Lemma unset_token_is_sent_as_undefined_witness :
  provider_calls
    (trace (snd (middleware Scenarios.env_no_key Examples.monitoring_8888 Examples.w0))) =
    provider_calls (trace Examples.w0) ++
      ["https://ipinfo.io/" +:+ "8.8.8.8" +:+ "/json?token=undefined"].
Proof.
  apply (unset_token_is_sent_as_undefined Scenarios.env_no_key Examples.monitoring_8888
           "8.8.8.8" Examples.w0).
  - reflexivity.
  - apply includes_elem_of. reflexivity.
  - reflexivity.
  - discriminate.
Defined.

(** * Serving many requests *)

Lemma serve_cons (env : Env) (request : NextRequest) (requests : list NextRequest) (w : World) :
  serve env (request :: requests) w = serve env requests (snd (middleware env request w)).
Proof. reflexivity. Qed.

Lemma forwarded_cons (request : NextRequest) (requests : list NextRequest) :
  omap forwarded_address (request :: requests) =
  option_list (forwarded_address request) ++ omap forwarded_address requests.
Proof. simpl. by destruct (forwarded_address request). Qed.

(** One request: the calls made, against whether it passes the gate. *)
Lemma middleware_provider_calls (env : Env) (request : NextRequest) (w : World) :
  provider_calls (trace (snd (middleware env request w))) =
  provider_calls (trace w) ++ (lookup_url env <$> option_list (forwarded_address request)).
Proof.
  destruct (qualifies request) eqn:Hq.
  - destruct (middleware_qualified env request w Hq) as (V & w' & -> & -> & Hrec).
    simpl. by apply Recorded_provider_calls.
  - destruct (middleware_unqualified env request w Hq) as (r & -> & _ & ->).
    simpl. by rewrite app_nil_r.
Qed.

(** One request: the table grows by one row at most, and with it the number
    of writes. *)
Lemma middleware_table_size (env : Env) (request : NextRequest) (w : World) :
  (size (ip_info (snd (middleware env request w))) <=
   size (ip_info w) + length (option_list (forwarded_address request)))%nat /\
  (length (storage_writes (trace (snd (middleware env request w)))) <=
   length (storage_writes (trace w)) + length (option_list (forwarded_address request)))%nat.
Proof.
  destruct (qualifies request) eqn:Hq.
  - destruct (middleware_qualified env request w Hq) as (V & w' & -> & -> & Hrec).
    simpl. split.
    + destruct (Recorded_table env V w w' Hrec) as [->|(r & _ & ->)]; [lia|].
      destruct (ip_info w !! id r) eqn:Hk.
      * rewrite map_size_insert_Some by eauto. lia.
      * rewrite map_size_insert_None by done. lia.
    + destruct (Recorded_storage_writes env V w w' Hrec) as [->|(? & ? & _ & _ & ->)];
        [lia|]. rewrite length_app. simpl. lia.
  - destruct (middleware_unqualified env request w Hq) as (r & -> & _ & ->).
    simpl. lia.
Qed.

(** X6.  Over any sequence of requests the provider is asked once for each
    request that passes the gate, about the address that request forwards
    and in the order of the requests, and never for a request that fails the
    gate. *)
Theorem provider_asked_once_per_visit
    (env : Env) (requests : list NextRequest) (w : World) :
  provider_calls (trace (serve env requests w)) =
  provider_calls (trace w) ++ (lookup_url env <$> omap forwarded_address requests).
Proof.
  revert w. induction requests as [|request requests IH]; intros w.
  - simpl. by rewrite app_nil_r.
  - rewrite serve_cons, IH, middleware_provider_calls, forwarded_cons.
    by rewrite fmap_app, <- app_assoc.
Qed.

(** X7.  Over any sequence of requests the table gains at most one row, and
    the database sees at most one write, per request that passes the gate. *)
Theorem at_most_one_row_per_visit
    (env : Env) (requests : list NextRequest) (w : World) :
  (size (ip_info (serve env requests w)) <=
   size (ip_info w) + length (omap forwarded_address requests))%nat /\
  (length (storage_writes (trace (serve env requests w))) <=
   length (storage_writes (trace w)) + length (omap forwarded_address requests))%nat.
Proof.
  revert w. induction requests as [|request requests IH]; intros w.
  - simpl. lia.
  - rewrite serve_cons.
    destruct (IH (snd (middleware env request w))) as [Hsize Hwrites].
    destruct (middleware_table_size env request w) as [Hsize1 Hwrites1].
    rewrite forwarded_cons, length_app. lia.
Qed.

(** X8.  Requests that fail the gate, however many, leave the world exactly
    as it was: no call, no write, no line on the console, no identifier
    drawn. *)
Theorem rejected_requests_change_nothing
    (env : Env) (requests : list NextRequest) (w : World) :
  Forall (fun request => qualifies request = false) requests ->
  serve env requests w = w.
Proof.
  induction 1 as [|request requests Hq _ IH]; [done|].
  rewrite serve_cons.
  by destruct (middleware_unqualified env request w Hq) as (r & -> & _).
Qed.

Lemma rejected_requests_change_nothing_witness :
  serve Examples.env_ok
    [Scenarios.favicon; Scenarios.poem_no_header;
     Examples.request_to "/Poem" [("x-forwarded-for", "8.8.8.8")]]
    Examples.w0 = Examples.w0.
Proof.
  apply (rejected_requests_change_nothing Examples.env_ok).
  repeat constructor.
Defined.

(** X9.  Nothing is ever deduplicated: with a provider that always answers,
    a database that accepts every write and identifiers that never repeat,
    the table grows by exactly one row for each request that passes the
    gate, whether or not the same address was seen before. *)
Theorem every_visit_adds_a_row
    (env : Env) (requests : list NextRequest) (w : World) :
  collision_free env ->
  always_answers env ->
  always_accepts env ->
  ids_drawn env w ->
  size (ip_info (serve env requests w)) =
    (size (ip_info w) + length (omap forwarded_address requests))%nat.
Proof.
  intros Hinj Hanswers Haccepts. revert w.
  induction requests as [|request requests IH]; intros w Hw.
  - simpl. lia.
  - rewrite serve_cons, IH by by apply middleware_ids_drawn.
    rewrite forwarded_cons, length_app. destruct (qualifies request) eqn:Hq.
    + destruct (middleware_qualified env request w Hq) as (V & w' & -> & Hrun & Hrec).
      rewrite Hrun. simpl.
      pose proof (next_uuid_fresh env w Hinj Hw) as Hfresh.
      destruct Hrec as [e He|status data Hp Hn w1 r Hv|status data e Hp Hn w1 r Hv].
      * exfalso. destruct (Hanswers w (lookup_url env V)) as (s & d & Hp & Hn).
        rewrite Hp in He. destruct He as [He _]. congruence.
      * simpl. rewrite map_size_insert_None by done. lia.
      * exfalso. subst w1 r. rewrite Haccepts in Hv. done.
    + destruct (middleware_unqualified env request w Hq) as (r & -> & _ & ->).
      simpl. lia.
Qed.

Lemma always_answers_env_ok : always_answers Examples.env_ok.
Proof. intros w url. by exists 200, Examples.mountain_view. Qed.

Lemma always_accepts_env_ok : always_accepts Examples.env_ok.
Proof. by intros w rows. Qed.

Lemma every_visit_adds_a_row_witness :
  size (ip_info
          (serve Examples.env_ok
             [Examples.monitoring_8888; Scenarios.favicon; Examples.monitoring_8888;
              Scenarios.home_9999; Examples.monitoring_8888]
             Examples.w0)) = 4%nat.
Proof.
  exact (every_visit_adds_a_row Examples.env_ok
           [Examples.monitoring_8888; Scenarios.favicon; Examples.monitoring_8888;
            Scenarios.home_9999; Examples.monitoring_8888]
           Examples.w0
           (uuid_of_nat_collision_free _ _) always_answers_env_ok always_accepts_env_ok
           (ids_drawn_empty _)).
Defined.

(** One request leaves every row of the table where it is. *)
Lemma middleware_keeps_rows (env : Env) (request : NextRequest) (w : World) :
  collision_free env -> ids_drawn env w ->
  ip_info w ⊆ ip_info (snd (middleware env request w)).
Proof.
  intros Hinj Hw. destruct (qualifies request) eqn:Hq.
  - destruct (middleware_qualified env request w Hq) as (V & w' & _ & -> & Hrec).
    simpl. destruct (Recorded_table env V w w' Hrec) as [->|(r & Hid & ->)]; [done|].
    apply insert_subseteq. rewrite Hid. by apply next_uuid_fresh.
  - by destruct (middleware_unqualified env request w Hq) as (r & -> & _).
Qed.

(** X10.  The middleware only ever adds rows: as long as identifiers never
    repeat, every row that is in the table stays there unchanged, under its
    key, through any sequence of requests. *)
Theorem stored_rows_are_never_touched
    (env : Env) (requests : list NextRequest) (w : World) (k : string) (r : Row) :
  collision_free env ->
  ids_drawn env w ->
  ip_info w !! k = Some r ->
  ip_info (serve env requests w) !! k = Some r.
Proof.
  intros Hinj. revert w. induction requests as [|request requests IH]; intros w Hw Hk.
  - done.
  - rewrite serve_cons. apply IH.
    + by apply middleware_ids_drawn.
    + by apply (lookup_weaken _ _ _ _ Hk), middleware_keeps_rows.
Qed.

Lemma stored_rows_are_never_touched_witness :
  let w1 := serve Examples.env_ok [Examples.monitoring_8888] Examples.w0 in
  ip_info w1 !! "00000000-0000-4000-8000-0" = Some Examples.mountain_view_row /\
  ip_info (serve Examples.env_ok
             [Examples.monitoring_8888; Scenarios.home_9999; Scenarios.favicon] w1)
    !! "00000000-0000-4000-8000-0" = Some Examples.mountain_view_row.
Proof.
  cbv zeta.
  assert (ip_info (serve Examples.env_ok [Examples.monitoring_8888] Examples.w0)
            !! "00000000-0000-4000-8000-0" = Some Examples.mountain_view_row) as Hrow
    by reflexivity.
  split; [exact Hrow|].
  apply (stored_rows_are_never_touched Examples.env_ok
           [Examples.monitoring_8888; Scenarios.home_9999; Scenarios.favicon]
           (serve Examples.env_ok [Examples.monitoring_8888] Examples.w0)
           "00000000-0000-4000-8000-0" Examples.mountain_view_row
           (uuid_of_nat_collision_free _ _)).
  - apply serve_ids_drawn, ids_drawn_empty.
  - exact Hrow.
Defined.

(** * What a request is read for, and the second middleware *)

(** X11.  Both copies of the middleware read a request for its path and its
    [x-forwarded-for] header and for nothing else: two requests that agree on
    these two get the same response and have the same effects, whatever
    their other headers (the [user_id] header of the second copy included). *)
Theorem only_path_and_forwarded_header_matter
    (env : Env) (request1 request2 : NextRequest) (w : World) :
  pathname request1 = pathname request2 ->
  headers request1 !! "x-forwarded-for" = headers request2 !! "x-forwarded-for" ->
  middleware env request1 w = middleware env request2 w /\
  Variant.middleware env request1 w = Variant.middleware env request2 w.
Proof.
  intros Hpath Hhdr. split.
  - unfold middleware, headers_get. by rewrite Hpath, Hhdr.
  - unfold Variant.middleware, headers_get. rewrite Hpath, Hhdr.
    destruct (negb (String.eqb (pathname request2) "/") &&
              negb (String.eqb (pathname request2) "/poem") &&
              negb (String.eqb (pathname request2) "/monitoring")); [done|].
    destruct (js_not (headers request2 !! "x-forwarded-for")); [done|].
    unfold bind. destruct (Variant.getIpInfoFromIp env _ w) as [[ipInfo|e] w1]; done.
Qed.

Lemma only_path_and_forwarded_header_matter_witness :
  middleware Examples.env_ok (Scenarios.monitoring_8888_as "alice") Examples.w0 =
    middleware Examples.env_ok Examples.monitoring_8888 Examples.w0 /\
  Variant.middleware Examples.env_ok (Scenarios.monitoring_8888_as "alice") Examples.w0 =
    Variant.middleware Examples.env_ok Examples.monitoring_8888 Examples.w0.
Proof.
  apply (only_path_and_forwarded_header_matter Examples.env_ok
           (Scenarios.monitoring_8888_as "alice") Examples.monitoring_8888 Examples.w0).
  - reflexivity.
  - reflexivity.
Defined.

(** X12.  [getUserIdFromRequest] has no effect and never returns the empty
    string: it returns the [user_id] header when that is a non-empty string,
    and [anonimo] when the header is missing or empty. *)
Theorem user_id_is_header_or_default (request : NextRequest) (w : World) :
  exists u : string,
    Variant.getUserIdFromRequest request w = (Ok u, w) /\
    u <> "" /\
    (headers request !! "user_id" = Some u \/
     u = "anonimo" /\
     (headers request !! "user_id" = None \/ headers request !! "user_id" = Some "")).
Proof.
  unfold Variant.getUserIdFromRequest, headers_get, ret.
  destruct (headers request !! "user_id") as [u|] eqn:Hu; simpl.
  - destruct (String.eqb_spec u "") as [->|Hne].
    + exists "anonimo". split; [done|]. split; [done|]. right. auto.
    + exists u. split; [done|]. split; [done|]. by left.
  - exists "anonimo". split; [done|]. split; [done|]. right. auto.
Qed.

Lemma console_logs_app (t1 t2 : list Event) :
  console_logs (t1 ++ t2) = console_logs t1 ++ console_logs t2.
Proof. apply omap_app. Qed.

(** X13.  The second middleware reports the outcome of each write on the
    console: for a qualifying request whose lookup gave a record, it prints
    one [console.log] line and no error when the database accepts the row
    (which is then in the table), and one [console.error] line and no log
    line when the database rejects it (the table is then unchanged); the
    request gets its normal response either way. *)
Theorem second_middleware_reports_each_write
    (env : Env) (request : NextRequest) (V : string) (w : World)
    (status : Z) (data : JSValue) :
  pathname request ∈ ["/"; "/poem"; "/monitoring"] ->
  headers request !! "x-forwarded-for" = Some V ->
  V <> "" ->
  provider env w (lookup_url env V) = Responds status (Json data) ->
  nullish data = false ->
  let r := row_of (randomUUID env (uuids_drawn w)) (fields_of data) in
  let verdict := store_verdict env (drew_uuid (log (EvFetch (lookup_url env V)) w)) [r] in
  exists w' : World,
    Variant.middleware env request w = (Ok NextResponse_next, w') /\
    storage_writes (trace w') = storage_writes (trace w) ++ [("ip_info", [r])] /\
    ((verdict = None /\
      console_logs (trace w') =
        console_logs (trace w) ++ ["Informações do IP salvas com sucesso no Supabase:"] /\
      console_errors (trace w') = console_errors (trace w) /\
      ip_info w' = <[ id r := r ]> (ip_info w)) \/
     (exists e : PostgrestError,
        verdict = Some e /\
        console_logs (trace w') = console_logs (trace w) /\
        console_errors (trace w') =
          console_errors (trace w) ++
            [("Erro ao salvar informações do IP no Supabase:", LogDb e)] /\
        ip_info w' = ip_info w)).
Proof.
  intros Hpath Hhdr HV Hp Hn r verdict.
  assert (String.eqb (pathname request) "/"
          || String.eqb (pathname request) "/poem"
          || String.eqb (pathname request) "/monitoring" = true) as Hgate.
  { apply includes_elem_of in Hpath. unfold includes in Hpath. simpl in Hpath.
    by rewrite orb_false_r, orb_assoc in Hpath. }
  unfold Variant.middleware.
  rewrite <- !negb_orb, Hgate. simpl.
  unfold headers_get. rewrite Hhdr.
  assert (js_not (Some V) = false) as -> by (apply js_not_false; eauto).
  unfold bind, Variant.getIpInfoFromIp, try_catch, bind, fetch.
  rewrite url_of_header, Hp. simpl.
  rewrite !(get_property_read _ _ _ Hn).
  unfold Variant.getUserIdFromRequest, ret, Variant.saveIpInfoToDatabase, bind,
    crypto_randomUUID, upsert. simpl.
  match goal with
  | |- context [store_verdict env ?w1 ?rows] =>
      destruct (store_verdict env w1 rows) as [e|] eqn:Hv
  end; simpl; eexists; (split; [reflexivity|]); simpl;
    rewrite !storage_writes_app, !console_logs_app, !console_errors_app; simpl;
    rewrite ?app_nil_r.
  - split; [done|]. right. exists e. split; [exact Hv | done].
  - split; [done|]. left. split; [exact Hv | done].
Qed.

Lemma second_middleware_reports_each_write_witness :
  exists w' : World,
    Variant.middleware Examples.env_db_down Examples.monitoring_8888 Examples.w0 =
      (Ok NextResponse_next, w') /\
    storage_writes (trace w') = [("ip_info", [Examples.mountain_view_row])] /\
    console_logs (trace w') = [] /\
    console_errors (trace w') =
      [("Erro ao salvar informações do IP no Supabase:",
        LogDb "permission denied for table ip_info")] /\
    ip_info w' = ∅.
Proof.
  destruct (second_middleware_reports_each_write Examples.env_db_down
              Examples.monitoring_8888 "8.8.8.8" Examples.w0 200 Examples.mountain_view)
    as (w' & Hrun & Hwrites & [(Hv & _)|(e & Hv & Hlogs & Herrors & Htable)]).
  - apply includes_elem_of. reflexivity.
  - reflexivity.
  - discriminate.
  - reflexivity.
  - reflexivity.
  - discriminate Hv.
  - exists w'. split; [exact Hrun|]. split; [exact Hwrites|]. split; [exact Hlogs|].
    injection Hv as <-. split; [exact Herrors | exact Htable].
Defined.

(** * Further properties of the map page *)

(** [split] after a comma-free first piece. *)
Lemma split_comma_first (piece rest : string) :
  Page.comma_free piece ->
  Page.split_comma (piece +:+ "," +:+ rest) = piece :: Page.split_comma rest.
Proof.
  intros Hfree. unfold Page.split_comma.
  rewrite (split_pieces_prefix piece _ Hfree), append_String, append_empty_l. simpl.
  destruct (Page.split_pieces rest) as [p ps]. simpl. by rewrite append_empty_r.
Qed.

Lemma split_comma_whole (s : string) :
  Page.comma_free s -> Page.split_comma s = [s].
Proof.
  intros Hfree. unfold Page.split_comma. by rewrite (split_pieces_comma_free s Hfree).
Qed.

(** The markers of rows put one after the other. *)
Lemma mapM_app {A B : Type} (f : A -> option B) (l1 l2 : list A) :
  mapM f (l1 ++ l2) =
  match mapM f l1, mapM f l2 with
  | Some k1, Some k2 => Some (k1 ++ k2)
  | _, _ => None
  end.
Proof.
  induction l1 as [|x l1 IH]; simpl.
  - by destruct (mapM f l2).
  - destruct (f x) as [y|]; simpl; [|done]. rewrite IH.
    by destruct (mapM f l1), (mapM f l2).
Qed.

(** X14.  The page builds a map only if some row has a [loc]: with none (no
    rows at all, or rows whose [loc] is missing or empty) no map is created
    and nothing is printed.  With some, and when each of them has a [loc]
    whose first two pieces convert to numbers, the map is centred on [0, 0]
    at zoom 2, has the one OpenStreetMap tile layer, and holds as many
    markers as there are rows with a [loc].  The page state keeps exactly
    the rows with a [loc]. *)
Theorem map_is_built_only_for_located_rows
    {num : Type} (Number : string -> num) (isNaN : num -> bool) (data : list Page.Item) :
  (forall item, item ∈ data -> Page.has_loc item ->
     Page.plottable num Number isNaN item = true) ->
  exists st : Page.PageState num,
    Page.MapPage num Number isNaN (Page.SelectData data) = Some st /\
    Page.locations st = filter Page.has_loc data /\
    Page.console st = [] /\
    ((filter Page.has_loc data = [] /\ Page.map st = None) \/
     (filter Page.has_loc data <> [] /\
      exists lmap : Page.LeafletMap num,
        Page.map st = Some lmap /\
        Page.view num lmap = ((0, 0), 2) /\
        Page.tiles num lmap = ["https://{s}.tile.openstreetmap.org/{z}/{x}/{y}.png"] /\
        length (Page.markers num lmap) = length (filter Page.has_loc data))).
Proof.
  intros Hall.
  destruct (MapPage_plottable Number isNaN data Hall)
    as (st & Hrun & Hlocs & Hconsole & Hnone & Hsome & Hshown).
  pose proof (Forall2_length _ _ _ Hshown) as Hlen.
  exists st. repeat (split; [done|]).
  destruct (filter Page.has_loc data) as [|item items] eqn:Hfilter.
  - left. split; [done|]. by apply Hnone.
  - right. split; [done|]. eexists. split; [by apply Hsome|].
    cbn [Page.view Page.tiles Page.markers]. by repeat split.
Qed.

Lemma map_is_built_only_for_located_rows_witness :
  exists st : Page.PageState Examples.Decimal,
    Page.MapPage Examples.Decimal Examples.Number_decimal Examples.isNaN_decimal
      (Page.SelectData Examples.rows) = Some st /\
    length (Page.locations st) = 2%nat /\
    exists lmap : Page.LeafletMap Examples.Decimal,
      Page.map st = Some lmap /\
      Page.view Examples.Decimal lmap = ((0, 0), 2) /\
      length (Page.markers Examples.Decimal lmap) = 2%nat.
Proof.
  destruct (map_is_built_only_for_located_rows Examples.Number_decimal
              Examples.isNaN_decimal Examples.rows rows_plottable)
    as (st & Hrun & Hlocs & _ & [[Hnone _]|(_ & lmap & Hmap & Hview & _ & Hlen)]).
  - discriminate Hnone.
  - exists st. split; [exact Hrun|]. split; [by rewrite Hlocs|].
    exists lmap. split; [exact Hmap|]. split; [exact Hview | exact Hlen].
Defined.

(** X15.  One row is enough to break the page: if some fetched row has a
    non-empty [loc] that has no comma (its longitude is then [undefined]), or
    whose first two pieces do not both convert to numbers, [L.marker] throws
    on it and the effect ends in that throw, whatever the other rows are. *)
Theorem unplottable_loc_breaks_the_page
    {num : Type} (Number : string -> num) (isNaN : num -> bool) (data : list Page.Item)
    (item : Page.Item) (s : string) :
  item ∈ data ->
  Page.loc item = Some s ->
  s <> "" ->
  Page.comma_free s \/ Page.numeric num Number isNaN s = false ->
  Page.MapPage num Number isNaN (Page.SelectData data) = None.
Proof.
  intros Hin Hloc Hne Hbad.
  apply (MapPage_unplottable Number isNaN data item Hin).
  - split; congruence.
  - unfold Page.plottable. rewrite Hloc. destruct Hbad as [Hfree|Hnum]; [|done].
    unfold Page.numeric. by rewrite (split_comma_whole s Hfree).
Qed.

Lemma unplottable_loc_breaks_the_page_witness :
  Page.MapPage Examples.Decimal Examples.Number_decimal Examples.isNaN_decimal
    (Page.SelectData
       (Examples.rows ++
          [ {| Page.loc := Some "37.4056 -122.0775"; Page.city := Some "Mountain View";
               Page.country := Some "US"; Page.hostname := None |} ])) = None.
Proof.
  apply (unplottable_loc_breaks_the_page Examples.Number_decimal Examples.isNaN_decimal _
           {| Page.loc := Some "37.4056 -122.0775"; Page.city := Some "Mountain View";
              Page.country := Some "US"; Page.hostname := None |}
           "37.4056 -122.0775").
  - apply elem_of_app. right. apply list_elem_of_here.
  - reflexivity.
  - discriminate.
  - left. unfold Page.comma_free. refine (bool_decide_unpack _ _). vm_compute. exact I.
Defined.

(** X16.  Of a [loc] with more than one comma only the first two pieces are
    used: when every row with a [loc] can be plotted, the marker of such a
    row sits at [Number] of the first and of the second piece, whatever comes
    after the second comma. *)
Theorem loc_pieces_after_the_second_are_ignored
    {num : Type} (Number : string -> num) (isNaN : num -> bool) (data : list Page.Item)
    (i : nat) (item : Page.Item) (lat lng rest : string) :
  (forall item, item ∈ data -> Page.has_loc item ->
     Page.plottable num Number isNaN item = true) ->
  filter Page.has_loc data !! i = Some item ->
  Page.loc item = Some (lat +:+ "," +:+ lng +:+ "," +:+ rest) ->
  Page.comma_free lat ->
  Page.comma_free lng ->
  exists (st : Page.PageState num) (m : Page.Marker num),
    Page.MapPage num Number isNaN (Page.SelectData data) = Some st /\
    Page.rendered st !! i = Some m /\
    Page.latlng m = (Number lat, Number lng).
Proof.
  intros Hall Hi Hloc Hlat Hlng.
  destruct (MapPage_plottable Number isNaN data Hall)
    as (st & Hrun & _ & _ & _ & _ & Hshown).
  destruct (Forall2_lookup_l _ _ _ i item Hshown Hi) as (m & Hm & Hof).
  exists st, m. split; [done|]. split; [done|].
  pose proof (list_elem_of_lookup_2 _ _ _ Hi) as Hin.
  apply list_elem_of_filter in Hin as [Hhas Hin].
  destruct (marker_of_plottable Number isNaN item (Hall item Hin Hhas))
    as (s & lat' & lng' & rest' & Hloc' & Hsplit & Hof').
  rewrite Hloc in Hloc'. injection Hloc' as <-.
  rewrite (split_comma_first lat _ Hlat), (split_comma_first lng _ Hlng) in Hsplit.
  injection Hsplit as <- <- _.
  rewrite Hof in Hof'. by injection Hof' as ->.
Qed.

Lemma lisbon_plottable (item : Page.Item) :
  item ∈ [ {| Page.loc := Some "38.7167,-9.1333,12,x"; Page.city := Some "Lisbon";
             Page.country := Some "PT"; Page.hostname := None |} ] ->
  Page.has_loc item ->
  Page.plottable Examples.Decimal Examples.Number_decimal Examples.isNaN_decimal item = true.
Proof. rewrite list_elem_of_singleton. by intros -> _. Qed.

Lemma loc_pieces_after_the_second_are_ignored_witness :
  exists (st : Page.PageState Examples.Decimal) (m : Page.Marker Examples.Decimal),
    Page.MapPage Examples.Decimal Examples.Number_decimal Examples.isNaN_decimal
      (Page.SelectData
         [ {| Page.loc := Some "38.7167,-9.1333,12,x"; Page.city := Some "Lisbon";
              Page.country := Some "PT"; Page.hostname := None |} ]) = Some st /\
    Page.rendered st !! 0%nat = Some m /\
    Page.latlng m = (Examples.Written "38.7167", Examples.Written "-9.1333").
Proof.
  apply (loc_pieces_after_the_second_are_ignored Examples.Number_decimal
           Examples.isNaN_decimal _ 0%nat
           {| Page.loc := Some "38.7167,-9.1333,12,x"; Page.city := Some "Lisbon";
              Page.country := Some "PT"; Page.hostname := None |}
           "38.7167" "-9.1333" "12,x").
  - exact lisbon_plottable.
  - reflexivity.
  - reflexivity.
  - unfold Page.comma_free. refine (bool_decide_unpack _ _). vm_compute. exact I.
  - unfold Page.comma_free. refine (bool_decide_unpack _ _). vm_compute. exact I.
Defined.

(** X17.  When [select] fails the page prints the error once, keeps no
    location, and builds no map and no marker. *)
Theorem failed_select_builds_no_map
    {num : Type} (Number : string -> num) (isNaN : num -> bool) (e : PostgrestError) :
  exists st : Page.PageState num,
    Page.MapPage num Number isNaN (Page.SelectError e) = Some st /\
    Page.console st = [e] /\
    Page.locations st = [] /\
    Page.map st = None /\
    Page.rendered st = [].
Proof. eexists. split; [reflexivity|]. by repeat split. Qed.

(** X18.  When every row with a [loc] can be plotted, the popup of each
    marker shows the city, the country and the host name of its row as
    [<h3>city, country</h3><p>hostname</p>], and every marker carries the
    same icon; a column that is NULL shows as the text [null]. *)
Theorem popup_shows_city_country_hostname
    {num : Type} (Number : string -> num) (isNaN : num -> bool) (data : list Page.Item)
    (i : nat) (item : Page.Item) :
  (forall item, item ∈ data -> Page.has_loc item ->
     Page.plottable num Number isNaN item = true) ->
  filter Page.has_loc data !! i = Some item ->
  exists (st : Page.PageState num) (m : Page.Marker num),
    Page.MapPage num Number isNaN (Page.SelectData data) = Some st /\
    Page.rendered st !! i = Some m /\
    Page.popup m =
      "<h3>" +:+ default "null" (Page.city item) +:+ ", "
        +:+ default "null" (Page.country item) +:+ "</h3><p>"
        +:+ default "null" (Page.hostname item) +:+ "</p>" /\
    Page.icon m = {| Page.className := "custom-marker"; Page.iconSize := (30, 30) |}.
Proof.
  intros Hall Hi.
  destruct (MapPage_plottable Number isNaN data Hall)
    as (st & Hrun & _ & _ & _ & _ & Hshown).
  destruct (Forall2_lookup_l _ _ _ i item Hshown Hi) as (m & Hm & Hof).
  exists st, m. split; [done|]. split; [done|].
  pose proof (list_elem_of_lookup_2 _ _ _ Hi) as Hin.
  apply list_elem_of_filter in Hin as [Hhas Hin].
  destruct (marker_of_plottable Number isNaN item (Hall item Hin Hhas))
    as (s & lat & lng & rest & _ & _ & Hof').
  rewrite Hof in Hof'. injection Hof' as ->. simpl. split; [|done].
  by destruct (Page.city item), (Page.country item), (Page.hostname item).
Qed.

Lemma popup_shows_city_country_hostname_witness :
  exists (st : Page.PageState Examples.Decimal) (m : Page.Marker Examples.Decimal),
    Page.MapPage Examples.Decimal Examples.Number_decimal Examples.isNaN_decimal
      (Page.SelectData Examples.rows) = Some st /\
    Page.rendered st !! 1%nat = Some m /\
    Page.popup m = "<h3>Sao Paulo, BR</h3><p>null</p>" /\
    Page.icon m = {| Page.className := "custom-marker"; Page.iconSize := (30, 30) |}.
Proof.
  apply (popup_shows_city_country_hostname Examples.Number_decimal Examples.isNaN_decimal
           Examples.rows 1%nat
           {| Page.loc := Some "-23.5475,-46.6361"; Page.city := Some "Sao Paulo";
              Page.country := Some "BR"; Page.hostname := None |}).
  - exact rows_plottable.
  - reflexivity.
Defined.

(** X19.  Markers follow the rows, and so do throws: for two batches of rows
    put one after the other, the effect throws if it throws on either batch
    alone, and otherwise shows the markers of the first batch followed by the
    markers of the second. *)
Theorem markers_of_appended_rows
    {num : Type} (Number : string -> num) (isNaN : num -> bool)
    (data1 data2 : list Page.Item) :
  Page.rendered <$> Page.MapPage num Number isNaN (Page.SelectData (data1 ++ data2)) =
  match Page.rendered <$> Page.MapPage num Number isNaN (Page.SelectData data1),
        Page.rendered <$> Page.MapPage num Number isNaN (Page.SelectData data2) with
  | Some shown1, Some shown2 => Some (shown1 ++ shown2)
  | _, _ => None
  end.
Proof. by rewrite !rendered_MapPage, filter_app, mapM_app. Qed.

(** What [split_pieces] hands back is comma-free, and gluing it together
    with commas gives the string. *)
Lemma split_pieces_sound (s : string) :
  String.concat "," (fst (Page.split_pieces s) :: snd (Page.split_pieces s)) = s /\
  Page.comma_free (fst (Page.split_pieces s)) /\
  Forall Page.comma_free (snd (Page.split_pieces s)).
Proof.
  unfold Page.comma_free. induction s as [|c s (Hglue & Hpiece & Hpieces)]; simpl.
  - split; [done|]. split; [apply not_elem_of_nil | constructor].
  - destruct (Page.split_pieces s) as [piece pieces]. simpl in *.
    destruct (Ascii.eqb_spec c ",") as [->|Hc]; simpl.
    + split; [by rewrite Hglue|]. split; [apply not_elem_of_nil | by constructor].
    + split; [|split; [|done]].
      * destruct pieces as [|p ps]; [by rewrite Hglue|].
        rewrite <- Hglue. reflexivity.
      * apply not_elem_of_cons. split; [congruence | done].
Qed.

(** X20.  [split] loses nothing: the pieces of a string hold no comma, there
    is one more piece than the string has commas, and the pieces joined by
    commas are the string again. *)
Theorem split_comma_round_trip (s : string) :
  String.concat "," (Page.split_comma s) = s /\
  Forall Page.comma_free (Page.split_comma s) /\
  length (Page.split_comma s) =
    S (length (filter (fun c => c = ("," : ascii)) (Page.chars s))).
Proof.
  destruct (split_pieces_sound s) as (Hglue & Hpiece & Hpieces).
  split; [|split].
  - unfold Page.split_comma. by destruct (Page.split_pieces s).
  - unfold Page.split_comma. destruct (Page.split_pieces s). by constructor.
  - apply split_comma_length.
Qed.

(** * The report by country *)

Section QueryFacts.

Context (collation : relation string) `{!RelDecision collation}.

#[local] Instance country_le_trans `{!Transitive collation} :
  Transitive (Query.country_le collation).
Proof. intros [x|] [y|] [z|]; simpl; try done. apply transitivity. Qed.

#[local] Instance country_le_total `{!Total collation} :
  Total (Query.country_le collation).
Proof. intros [x|] [y|]; simpl; auto. Qed.

#[local] Instance country_le_anti_symm `{!AntiSymm (=) collation} :
  AntiSymm (=) (Query.country_le collation).
Proof.
  intros [x|] [y|]; simpl; try done. intros Hxy Hyx. f_equal. by apply (anti_symm collation).
Qed.

(** The first column of the answer: the countries, sorted. *)
Lemma query_countries (rows : list Query.Visit) :
  fst <$> Query.distinct_ip_by_country collation rows =
  merge_sort (Query.country_le collation) (remove_dups (Query.country <$> rows)).
Proof.
  unfold Query.distinct_ip_by_country. rewrite <- list_fmap_compose.
  apply list_fmap_id.
Qed.

Lemma query_elem_of (rows : list Query.Visit) (c : option string) (n : nat) :
  (c, n) ∈ Query.distinct_ip_by_country collation rows <->
  (exists v, v ∈ rows /\ Query.country v = c) /\
  n = Query.count_distinct_ip (Query.group_of c rows).
Proof.
  unfold Query.distinct_ip_by_country. rewrite list_elem_of_fmap. split.
  - intros (c' & [= -> ->] & Hin).
    rewrite merge_sort_Permutation, elem_of_remove_dups, list_elem_of_fmap in Hin.
    destruct Hin as (v & -> & Hv). split; [by exists v | done].
  - intros [(v & Hv & <-) ->]. exists (Query.country v). split; [done|].
    rewrite merge_sort_Permutation, elem_of_remove_dups, list_elem_of_fmap. by exists v.
Qed.

(** Two lists without repetitions that hold the same things have the same
    length. *)
Lemma same_elements_same_count {A : Type} `{!EqDecision A} (l1 l2 : list A) :
  (forall x, x ∈ l1 <-> x ∈ l2) ->
  length (remove_dups l1) = length (remove_dups l2).
Proof.
  intros Hsame. apply Permutation_length, NoDup_Permutation.
  - apply NoDup_remove_dups.
  - apply NoDup_remove_dups.
  - intros x. by rewrite !elem_of_remove_dups.
Qed.

(** X21.  The report has exactly one line per country that occurs in the
    table, rows without a country forming one group of their own, and the
    lines come in ascending order of the country with that group last. *)
Theorem report_has_one_line_per_country
    `{!Transitive collation, !Total collation} (rows : list Query.Visit) :
  let lines := Query.distinct_ip_by_country collation rows in
  NoDup (fst <$> lines) /\
  (forall c : option string,
     c ∈ (fst <$> lines) <-> exists v, v ∈ rows /\ Query.country v = c) /\
  StronglySorted (Query.country_le collation) (fst <$> lines).
Proof.
  cbv zeta. rewrite query_countries. split; [|split].
  - rewrite merge_sort_Permutation. apply NoDup_remove_dups.
  - intros c. rewrite merge_sort_Permutation, elem_of_remove_dups, list_elem_of_fmap.
    split; intros (v & ? & ?); by exists v.
  - apply StronglySorted_merge_sort; apply _.
Qed.

(** X22.  The number the report gives for a country is the number of
    different non-NULL addresses among the rows of that country: an address
    that visits twice counts once, and a row without an address counts for
    nothing. *)
Theorem report_counts_distinct_addresses
    (rows : list Query.Visit) (c : option string) (n : nat) :
  (c, n) ∈ Query.distinct_ip_by_country collation rows ->
  exists addresses : list string,
    NoDup addresses /\
    length addresses = n /\
    (forall a : string,
       a ∈ addresses <->
       exists v, v ∈ rows /\ Query.country v = c /\ Query.ip v = Some a).
Proof.
  intros Hline. apply query_elem_of in Hline as [_ ->].
  exists (remove_dups (omap Query.ip (Query.group_of c rows))).
  split; [apply NoDup_remove_dups|]. split; [done|].
  intros a. rewrite elem_of_remove_dups, list_elem_of_omap. unfold Query.group_of.
  split.
  - intros (v & Hv & Hip). apply list_elem_of_filter in Hv as [Hc Hv]. by exists v.
  - intros (v & Hv & Hc & Hip). exists v. split; [|done]. by apply list_elem_of_filter.
Qed.

(** X23.  The report depends only on which pairs of country and address
    occur in the table, not on how often or in which order: tables with the
    same pairs get the same report, so a further visit of an address already
    recorded for its country changes nothing. *)
Theorem report_ignores_repeated_visits
    `{!Transitive collation, !Total collation, !AntiSymm (=) collation}
    (rows1 rows2 : list Query.Visit) :
  (forall v : Query.Visit, v ∈ rows1 <-> v ∈ rows2) ->
  Query.distinct_ip_by_country collation rows1 =
  Query.distinct_ip_by_country collation rows2.
Proof.
  intros Hsame. unfold Query.distinct_ip_by_country.
  assert (merge_sort (Query.country_le collation) (remove_dups (Query.country <$> rows1)) =
          merge_sort (Query.country_le collation) (remove_dups (Query.country <$> rows2)))
    as ->.
  { apply (StronglySorted_unique (Query.country_le collation)).
    - apply StronglySorted_merge_sort; apply _.
    - apply StronglySorted_merge_sort; apply _.
    - rewrite !merge_sort_Permutation. apply NoDup_Permutation.
      + apply NoDup_remove_dups.
      + apply NoDup_remove_dups.
      + intros c. rewrite !elem_of_remove_dups, !list_elem_of_fmap.
        split; intros (v & ? & Hv); exists v; (split; [done|]); by apply Hsame. }
  apply list_fmap_ext. intros _ c _. f_equal.
  unfold Query.count_distinct_ip. apply same_elements_same_count.
  intros a. rewrite !list_elem_of_omap. unfold Query.group_of.
  split; intros (v & Hv & Hip); exists v; (split; [|done]);
    apply list_elem_of_filter in Hv as [Hc Hv]; apply list_elem_of_filter;
    (split; [done|]); by apply Hsame.
Qed.

End QueryFacts.

Lemma report_has_one_line_per_country_witness :
  let lines := Query.distinct_ip_by_country String.le Query.visits in
  lines = [(Some "BR", 1%nat); (Some "US", 2%nat); (None, 1%nat)] /\
  NoDup (fst <$> lines) /\
  StronglySorted (Query.country_le String.le) (fst <$> lines).
Proof.
  cbv zeta.
  destruct (report_has_one_line_per_country String.le Query.visits)
    as (Hnodup & _ & Hsorted).
  split; [vm_compute; reflexivity|]. split; [exact Hnodup | exact Hsorted].
Defined.

Lemma report_counts_distinct_addresses_witness :
  exists addresses : list string,
    NoDup addresses /\
    length addresses = 2%nat /\
    (forall a : string,
       a ∈ addresses <->
       exists v, v ∈ Query.visits /\ Query.country v = Some "US" /\ Query.ip v = Some a).
Proof.
  apply (report_counts_distinct_addresses String.le Query.visits (Some "US") 2%nat).
  assert (Query.distinct_ip_by_country String.le Query.visits =
          [(Some "BR", 1%nat); (Some "US", 2%nat); (None, 1%nat)]) as ->
    by (vm_compute; reflexivity).
  apply list_elem_of_further, list_elem_of_here.
Defined.

Lemma report_ignores_repeated_visits_witness :
  Query.distinct_ip_by_country String.le
    (Query.visits ++ [ {| Query.country := Some "US"; Query.ip := Some "8.8.8.8" |} ]) =
  Query.distinct_ip_by_country String.le Query.visits.
Proof.
  apply (report_ignores_repeated_visits String.le).
  intros v. rewrite elem_of_app, list_elem_of_singleton. split.
  - intros [Hv| ->]; [exact Hv | apply list_elem_of_here].
  - intros Hv. left. exact Hv.
Defined.

(** * The two steps of the recorder on their own *)

Lemma lookup_ignores_status_witness :
  getIpInfoFromIp Examples.env_404 (Some "unknown") Examples.w0 =
  getIpInfoFromIp (Examples.env_with (Responds 200 (Json Examples.wrong_ip)) None)
    (Some "unknown") Examples.w0.
Proof.
  apply (lookup_ignores_status
           (Examples.env_with (Responds 200 (Json Examples.wrong_ip)) None)
           Examples.env_404 "unknown" Examples.w0 200 404 (Json Examples.wrong_ip)).
  - reflexivity.
  - reflexivity.
  - reflexivity.
Defined.

(** X26.  [getIpInfoFromIp] never throws and touches nothing but the
    provider and the console: it makes exactly one call, writes no row and
    draws no identifier.  It returns [null] exactly when [fetch] rejected,
    the body was not JSON, or the body was the JSON value [null]; otherwise
    it returns the nine fields read off the body. *)
Theorem lookup_contract (env : Env) (V : string) (w : World) :
  exists (result : option IpInfo) (w' : World),
    getIpInfoFromIp env (Some V) w = (Ok result, w') /\
    provider_calls (trace w') = provider_calls (trace w) ++ [lookup_url env V] /\
    storage_writes (trace w') = storage_writes (trace w) /\
    ip_info w' = ip_info w /\
    uuids_drawn w' = uuids_drawn w /\
    match provider env w (lookup_url env V) with
    | Rejects _ | Responds _ (NotJson _) => result = None
    | Responds _ (Json data) =>
        if nullish data then result = None else result = Some (fields_of data)
    end.
Proof.
  destruct (provider env w (lookup_url env V)) as [reason|status [reason|data]] eqn:Hp.
  - rewrite (lookup_rejected env V reason w Hp). eexists _, _. split; [reflexivity|].
    simpl. rewrite !provider_calls_app, !storage_writes_app. simpl.
    by rewrite !app_nil_r.
  - rewrite (lookup_not_json env V reason status w Hp). eexists _, _.
    split; [reflexivity|].
    simpl. rewrite !provider_calls_app, !storage_writes_app. simpl.
    by rewrite !app_nil_r.
  - destruct (nullish data) eqn:Hn.
    + destruct (lookup_nullish env V status data w Hp Hn) as [reason ->].
      eexists _, _. split; [reflexivity|].
      simpl. rewrite !provider_calls_app, !storage_writes_app. simpl.
      by rewrite !app_nil_r.
    + rewrite (lookup_json env V status data w Hp Hn). eexists _, _.
      split; [reflexivity|].
      simpl. rewrite !provider_calls_app, !storage_writes_app. simpl.
      by rewrite !app_nil_r.
Qed.

(** X27.  [saveIpInfoToDatabase] never throws and never calls the provider.
    Given [null] it does nothing at all.  Given a record it draws one
    identifier and makes exactly one write of one row, which carries that
    identifier and the nine fields of the record; the table is then either
    unchanged (the write was rejected, and one error is printed) or has that
    row under its identifier. *)
Theorem save_contract (env : Env) (ipInfo : option IpInfo) (w : World) :
  exists w' : World,
    saveIpInfoToDatabase env ipInfo w = (Ok tt, w') /\
    provider_calls (trace w') = provider_calls (trace w) /\
    match ipInfo with
    | None => w' = w
    | Some info =>
        let r := row_of (randomUUID env (uuids_drawn w)) info in
        storage_writes (trace w') = storage_writes (trace w) ++ [("ip_info", [r])] /\
        uuids_drawn w' = S (uuids_drawn w) /\
        ((ip_info w' = <[ id r := r ]> (ip_info w) /\
          console_errors (trace w') = console_errors (trace w)) \/
         (ip_info w' = ip_info w /\
          exists e : PostgrestError,
            console_errors (trace w') =
              console_errors (trace w) ++ [("Error saving IP info to Supabase:", LogDb e)]))
    end.
Proof.
  destruct ipInfo as [info|]; [|by exists w].
  destruct (store_verdict env (drew_uuid w) [row_of (randomUUID env (uuids_drawn w)) info])
    as [e|] eqn:Hv.
  - rewrite (save_rejected env info w e Hv). eexists. split; [reflexivity|]. simpl.
    rewrite !provider_calls_app, !storage_writes_app, !console_errors_app. simpl.
    rewrite !app_nil_r. repeat (split; [done|]). right. split; [done|]. by exists e.
  - rewrite (save_accepted env info w Hv). eexists. split; [reflexivity|]. simpl.
    rewrite !provider_calls_app, !storage_writes_app, !console_errors_app. simpl.
    rewrite !app_nil_r. repeat (split; [done|]). by left.
Qed.

(** The keys of a map all of which come out of a list are no more than the
    list is long. *)
Lemma size_bounded_by_keys {A : Type} (m : gmap string A) (keys : list string) :
  (forall k, is_Some (m !! k) -> k ∈ keys) ->
  (size m <= length keys)%nat.
Proof.
  intros Hkeys. rewrite <- size_dom. unfold size, set_size. simpl.
  apply submseteq_length, NoDup_submseteq; [apply NoDup_elements|].
  intros k Hk. apply Hkeys. by apply elem_of_dom, elem_of_elements.
Qed.

(** X28.  Through any sequence of requests the table stays well-keyed: every
    row sits under the [id] it carries, that [id] is one of the identifiers
    drawn so far, and the table never holds more rows than identifiers were
    drawn. *)
Theorem table_stays_well_keyed
    (env : Env) (requests : list NextRequest) (w : World) :
  ids_drawn env w ->
  let w' := serve env requests w in
  (forall (k : string) (r : Row),
     ip_info w' !! k = Some r ->
     id r = k /\ exists n : nat, (n < uuids_drawn w')%nat /\ randomUUID env n = k) /\
  (size (ip_info w') <= uuids_drawn w')%nat.
Proof.
  intros Hw w'.
  assert (ids_drawn env w') as Hw' by by apply serve_ids_drawn.
  split; [exact Hw'|].
  assert (size (ip_info w') <= length (randomUUID env <$> seq 0 (uuids_drawn w')))%nat
    as Hsize.
  { apply size_bounded_by_keys. intros k [r Hk].
    destruct (Hw' k r Hk) as (_ & n & Hn & <-).
    apply list_elem_of_fmap. exists n. split; [done|]. apply elem_of_seq. lia. }
  by rewrite length_fmap, length_seq in Hsize.
Qed.

Lemma table_stays_well_keyed_witness :
  let w' := serve Examples.env_db_down
              [Examples.monitoring_8888; Scenarios.home_9999] Examples.w0 in
  (forall (k : string) (r : Row),
     ip_info w' !! k = Some r ->
     id r = k /\
     exists n : nat, (n < uuids_drawn w')%nat /\ randomUUID Examples.env_db_down n = k) /\
  (size (ip_info w') <= uuids_drawn w')%nat /\
  uuids_drawn w' = 2%nat /\
  size (ip_info w') = 0%nat.
Proof.
  cbv zeta.
  destruct (table_stays_well_keyed Examples.env_db_down
              [Examples.monitoring_8888; Scenarios.home_9999] Examples.w0
              (ids_drawn_empty _)) as [Hkeys Hsize].
  split; [exact Hkeys|]. split; [exact Hsize|]. split; reflexivity.
Defined.
